(** * Lume site orchestrator (site.ts): a shallow embedding

    The development follows [LumeSite]: the event bus
    ([addEventListener], [dispatchEvent]), the registration helpers
    ([copy], [ignore]), the two pipelines ([build], [update]) and the URL
    resolver ([url]).

    Modelling conventions.
    - JavaScript strings are [string]s of code units.  The characters the
      code inspects ("/", "_", ".", "~", word characters) are ASCII; any
      other code unit is never a word character and never a separator.
    - The path module is the POSIX build of [deps/path.ts]: [SEP] is "/"
      and [join] is [posix.join].
    - Collaborators (loader, renderer, emitter, command runner, metrics,
      listener callables) are interfaces over an abstract world [W]; each
      call either returns or throws, and is recorded in a trace.
    - [async]/[await] is sequential in this file: every call is awaited
      before the next statement runs.
    - Listeners and collaborators act on the world and on the page
      collections; they do not register listeners, mappings or ignored
      paths while a run is under way. *)

From Stdlib Require Import String Ascii List Bool Arith Lia.
From stdpp Require Import gmap strings.
Import ListNotations.

(** ** JavaScript string primitives used by the source *)

Module Js.

(** [s.startsWith(p)] *)
Definition startsWith (s p : string) : bool := String.prefix p s.

(** [s.slice(n)] for a non-negative [n] *)
Fixpoint slice (n : nat) (s : string) : string :=
  match n, s with
  | O, _ => s
  | S n', String _ r => slice n' r
  | S _, EmptyString => EmptyString
  end.

(** [s.includes(sub)] *)
Fixpoint includes (s sub : string) : bool :=
  String.prefix sub s
  || match s with
     | EmptyString => false
     | String _ r => includes r sub
     end.

(** [s.replaceAll(c, by)] for a one-character pattern [c] *)
Fixpoint replaceAll (c : ascii) (by_ : string) (s : string) : string :=
  match s with
  | EmptyString => EmptyString
  | String a r =>
      if Ascii.eqb a c then by_ +:+ replaceAll c by_ r
      else String a (replaceAll c by_ r)
  end.

(** [s.endsWith(String c "")], as [charCodeAt(length - 1) === c] *)
Fixpoint lastIs (c : ascii) (s : string) : bool :=
  match s with
  | EmptyString => false
  | String a EmptyString => Ascii.eqb a c
  | String _ r => lastIs c r
  end.

(** [s.split("/")] *)
Fixpoint split (s : string) : list string :=
  match s with
  | EmptyString => [EmptyString]
  | String a r =>
      if Ascii.eqb a "/"%char then EmptyString :: split r
      else match split r with
           | h :: t => String a h :: t
           | [] => [String a EmptyString]
           end
  end.

(** The regular-expression class [\w]: ASCII letters, digits and "_". *)
Definition isWord (c : ascii) : bool :=
  let n := nat_of_ascii c in
  ((48 <=? n) && (n <=? 57)) || ((65 <=? n) && (n <=? 90))
  || ((97 <=? n) && (n <=? 122)) || (n =? 95).

Fixpoint allWord (s : string) : bool :=
  match s with
  | EmptyString => true
  | String a r => isWord a && allWord r
  end.

(** If [p] is a prefix of [s], what follows it. *)
Fixpoint stripPrefix (p s : string) : option string :=
  match p, s with
  | EmptyString, _ => Some s
  | String a p', String b s' =>
      if Ascii.eqb a b then stripPrefix p' s' else None
  | String _ _, EmptyString => None
  end.

End Js.

(** ** The path module (POSIX) *)

Module Path.

Definition SEP : string := "/".

(** One step of [normalizeString]: the segments kept so far are held
    most recent first. *)
Definition pushSegment (allowAboveRoot : bool) (acc : list string)
    (seg : string) : list string :=
  if String.eqb seg "" then acc
  else if String.eqb seg "." then acc
  else if String.eqb seg ".." then
    match acc with
    | [] => if allowAboveRoot then [".."] else []
    | top :: rest =>
        if String.eqb top ".." then ".." :: acc else rest
    end
  else seg :: acc.

Definition normalizeString (path : string) (allowAboveRoot : bool) : string :=
  String.concat "/"
    (rev (fold_left (pushSegment allowAboveRoot) (Js.split path) [])).

Definition normalize (path : string) : string :=
  if String.eqb path "" then "."
  else
    let isAbsolute := Js.startsWith path "/" in
    let trailingSeparator := Js.lastIs "/"%char path in
    let p := normalizeString path (negb isAbsolute) in
    let p := if String.eqb p "" && negb isAbsolute then "." else p in
    let p := if negb (String.eqb p "") && trailingSeparator
             then p +:+ "/" else p in
    if isAbsolute then "/" +:+ p else p.

(** [join(...paths)]: the non-empty arguments glued with "/", then
    normalized. *)
Definition glue (joined : option string) (path : string) : option string :=
  if String.eqb path "" then joined
  else match joined with
       | None => Some path
       | Some j => if String.eqb j "" then Some path
                   else Some (j +:+ "/" +:+ path)
       end.

Definition join (paths : list string) : string :=
  match fold_left glue paths None with
  | None => "."
  | Some joined => if String.eqb joined "" then "." else normalize joined
  end.

End Path.

(** ** Data model *)

(** [EventType] of core.ts: the five lifecycle events. *)
Inductive EventType :=
  | beforeBuild | beforeSave | afterBuild | beforeUpdate | afterUpdate.

#[global] Instance EventType_eq_dec : EqDecision EventType.
Proof. solve_decision. Defined.

Definition EventType_to_nat (t : EventType) : nat :=
  match t with
  | beforeBuild => 0 | beforeSave => 1 | afterBuild => 2
  | beforeUpdate => 3 | afterUpdate => 4
  end.

Definition EventType_of_nat (n : nat) : option EventType :=
  match n with
  | 0 => Some beforeBuild | 1 => Some beforeSave | 2 => Some afterBuild
  | 3 => Some beforeUpdate | 4 => Some afterUpdate | _ => None
  end.

#[global] Instance EventType_countable : Countable EventType.
Proof.
  apply (inj_countable EventType_to_nat EventType_of_nat).
  intros []; reflexivity.
Defined.

(** An event: its type and, for the update events, the changed files (a
    [Set<string>], held in insertion order). *)
Record Event := { type : EventType; files : option (list string) }.

(** A listener is a command name or a function object; a function object
    is identified by its reference, which is how a JavaScript [Set]
    compares it. *)
Inductive Listener :=
  | Named (name : string)
  | Callable (ref : nat).

#[global] Instance Listener_eq_dec : EqDecision Listener.
Proof. solve_decision. Defined.

(** What a callable listener can return, as far as [=== false] can tell. *)
Inductive JsValue :=
  | JsUndefined
  | JsBoolean (b : bool)
  | JsOther (tag : nat).

Definition strictlyFalse (v : JsValue) : bool :=
  match v with
  | JsBoolean false => true
  | _ => false
  end.

(** [location]: the two fields of the URL object that the site reads. *)
Record Location := { origin : string; pathname : string }.

(** [metrics]: a boolean or the path of the file to save to. *)
Inductive MetricsOption :=
  | MetricsFlag (on : bool)
  | MetricsFile (file : string).

Record ServerOptions := { port : nat; open : bool; page404 : string }.

Record SiteOptions := {
  cwd : string;
  opt_src : string;
  opt_dest : string;
  includes : string;
  location : Location;
  metrics : MetricsOption;
  quiet : bool;
  dev : bool;
  prettyUrls : bool;
  flags : list string;
  server : ServerOptions
}.

(** [Partial<SiteOptions>] *)
Record PartialSiteOptions := {
  p_cwd : option string;
  p_src : option string;
  p_dest : option string;
  p_includes : option string;
  p_location : option Location;
  p_metrics : option MetricsOption;
  p_quiet : option bool;
  p_dev : option bool;
  p_prettyUrls : option bool;
  p_flags : option (list string);
  p_server : option ServerOptions
}.

Definition noOptions : PartialSiteOptions :=
  {| p_cwd := None; p_src := None; p_dest := None; p_includes := None;
     p_location := None; p_metrics := None; p_quiet := None; p_dev := None;
     p_prettyUrls := None; p_flags := None; p_server := None |}.

(** [defaults]; [Deno.cwd()] is read from the environment. *)
Definition defaults (deno_cwd : string) : SiteOptions :=
  {| cwd := deno_cwd;
     opt_src := "./";
     opt_dest := "./_site";
     includes := "_includes";
     location := {| origin := "http://localhost"; pathname := "/" |};
     metrics := MetricsFlag false;
     quiet := false;
     dev := false;
     prettyUrls := true;
     flags := [];
     server := {| port := 3000; open := false; page404 := "/404.html" |} |}.

(** Modelled from the spec: [merge] of utils.ts is not among the sources.
    Options are "produced by overlaying user-supplied fields onto documented
    defaults". *)
Definition merge (d : SiteOptions) (o : PartialSiteOptions) : SiteOptions :=
  {| cwd := default (cwd d) (p_cwd o);
     opt_src := default (opt_src d) (p_src o);
     opt_dest := default (opt_dest d) (p_dest o);
     includes := default (includes d) (p_includes o);
     location := default (location d) (p_location o);
     metrics := default (metrics d) (p_metrics o);
     quiet := default (quiet d) (p_quiet o);
     dev := default (dev d) (p_dev o);
     prettyUrls := default (prettyUrls d) (p_prettyUrls o);
     flags := default (flags d) (p_flags o);
     server := default (server d) (p_server o) |}.

(** A page: its source location, its data record (of which the site reads
    [url]) and its content. *)
Record Src := { src_path : string; src_ext : string }.
Record Data := { data_url : string }.
Record Page := { page_src : Src; page_data : Data; page_content : string }.

(** ** The source collaborator's registries

    source.ts is not among the sources; its registries are modelled from
    the spec, its input/output stays behind the [Loader] interface. *)

Record Source := {
  staticFiles : list (string * string);
  ignored : list string;
  source_pages : list Page
}.

Module SiteSource.

(** Modelled from the spec: the constructor of [SiteSource] is not among
    the sources; nothing is registered before the site registers it. *)
Definition new : Source :=
  {| staticFiles := []; ignored := []; source_pages := [] |}.

(** Modelled from the spec: [addStaticFile] is not among the sources.
    The mappings are an "ordered sequence of (from,to)" kept in
    registration order. *)
Definition addStaticFile (from to : string) (s : Source) : Source :=
  {| staticFiles := staticFiles s ++ [(from, to)];
     ignored := ignored s;
     source_pages := source_pages s |}.

(** Modelled from the spec: [addIgnoredPath] is not among the sources.
    The ignored paths are a set of path prefixes. *)
Definition addIgnoredPath (p : string) (s : Source) : Source :=
  {| staticFiles := staticFiles s;
     ignored := if decide (p ∈ ignored s) then ignored s
                else ignored s ++ [p];
     source_pages := source_pages s |}.

(** Modelled from the spec: [isStatic] is not among the sources.
    "mappings are tested in registration order; the first prefix match
    wins". *)
Definition isStatic (s : Source) (file : string) : option (string * string) :=
  find (fun entry => Js.startsWith file (fst entry)) (staticFiles s).

(** Modelled from the spec: [isIgnored] is not among the sources.
    "the path falls under an ignored prefix". *)
Definition isIgnored (s : Source) (file : string) : bool :=
  existsb (fun p => Js.startsWith file p) (ignored s).

End SiteSource.

(** ** The site *)

Record Site := {
  options : SiteOptions;
  source : Source;
  listeners : gmap EventType (list Listener);
  pages : list Page
}.

(** ** Effects: outcomes, observable steps, the pipeline monad *)

(** What can be thrown: the [Exception] of utils.ts with its [{ path }]
    data, the [URIError] of [decodeURI], or whatever a collaborator or a
    listener raises. *)
Inductive Exn :=
  | Exception (message : string) (path : string)
  | URIError
  | Raised (tag : nat).

Inductive Outcome (A : Type) :=
  | Ret (a : A)
  | Throw (e : Exn).
Arguments Ret {A} a.
Arguments Throw {A} e.

(** The steps of a run that an observer of the collaborators can see. *)
Inductive Step :=
  | Dispatch (event : Event)
  | RunScript (name : string)
  | CallFn (ref : nat) (event : Event)
  | Clear
  | CopyFile (from to : string)
  | LoadDirectory
  | LoadFile (file : string)
  | BuildPages (ps : list Page)
  | SavePages (ps : list Page)
  | MetricStart (label : string)
  | MetricStop (label : string)
  | MetricsSave (file : string)
  | MetricsPrint.

Record St (W : Type) := {
  st_site : Site;
  st_world : W;
  st_trace : list Step
}.
Arguments st_site {W} _.
Arguments st_world {W} _.
Arguments st_trace {W} _.

Definition M (W A : Type) : Type := St W -> Outcome A * St W.

Definition ret {W A} (a : A) : M W A := fun st => (Ret a, st).

Definition bind {W A B} (m : M W A) (k : A -> M W B) : M W B :=
  fun st =>
    match m st with
    | (Ret a, st') => k a st'
    | (Throw e, st') => (Throw e, st')
    end.

Declare Scope pipeline_scope.
Delimit Scope pipeline_scope with pipeline.
Notation "x <- m ;; k" := (bind m (fun x => k))
  (at level 100, m at next level, right associativity) : pipeline_scope.
Notation "m ;;; k" := (bind m (fun _ => k))
  (at level 100, right associativity) : pipeline_scope.

Definition getSite {W} : M W Site := fun st => (Ret (st_site st), st).

(** The state after a step [s] that leaves the world as [w]. *)
Definition logged {W} (st : St W) (w : W) (s : Step) : St W :=
  {| st_site := st_site st; st_world := w; st_trace := st_trace st ++ [s] |}.

Definition note {W} (s : Step) : M W unit :=
  fun st => (Ret tt, logged st (st_world st) s).

(** A collaborator call: the step is recorded, then the call acts on the
    world. *)
Definition perform {W A} (s : Step) (f : W -> Outcome A * W) : M W A :=
  fun st =>
    let '(o, w) := f (st_world st) in
    (o, logged st w s).

(** The page collections after a collaborator replaced them. *)
Definition setPages {W} (ps : list Page * list Page) : M W unit :=
  fun st =>
    let s := st_site st in
    (Ret tt,
     {| st_site := {| options := options s;
                      source := {| staticFiles := staticFiles (source s);
                                   ignored := ignored (source s);
                                   source_pages := fst ps |};
                      listeners := listeners s;
                      pages := snd ps |};
        st_world := st_world st;
        st_trace := st_trace st |}).

(** ** Collaborator interfaces *)

(** Builtins and helpers whose code is outside this file: [decodeURI]
    ([None] when it throws), [new URL(path).href] ([None] when parsing
    throws), and [normalizePath] of utils.ts. *)
Class Externals := {
  decodeURI : string -> option string;
  newURL : string -> option string;
  normalizePath : string -> string
}.

Class Scripts (W : Type) := {
  CommandOptions : Type;
  emptyOptions : CommandOptions;
  scripts_run : CommandOptions -> string -> W -> Outcome bool * W
}.

(** The function objects behind [Callable] references. *)
Class Callables (W : Type) := {
  call : nat -> Event -> W -> Outcome JsValue * W
}.

Class Emitter (W : Type) := {
  emitter_clear : W -> Outcome unit * W;
  emitter_copyFile : string -> string -> W -> Outcome unit * W;
  emitter_savePage : Page -> W -> Outcome unit * W
}.

(** [loadDirectory], [loadFile] and [buildPages] may replace the page
    collections ([source.pages], [site.pages]). *)
Class Loader (W : Type) := {
  source_loadDirectory : Site -> W -> Outcome (list Page * list Page) * W;
  source_loadFile : string -> Site -> W -> Outcome (list Page * list Page) * W
}.

Class Renderer (W : Type) := {
  renderer_buildPages :
    list Page -> Site -> W -> Outcome (list Page * list Page) * W
}.

Class Metrics (W : Type) := {
  metrics_start : string -> W -> Outcome unit * W;
  metric_stop : string -> W -> Outcome unit * W;
  metrics_save : string -> W -> Outcome unit * W;
  metrics_print : W -> Outcome unit * W
}.

(** [concurrent] of utils.ts: runs the iteratee over the pages with
    several calls in flight; the interleaving is not modelled. *)
Class Concurrency (W : Type) := {
  concurrent :
    list Page -> (Page -> W -> Outcome unit * W) -> W -> Outcome unit * W
}.

(** The two loaders the site imports, [loaders/text.ts] and
    [loaders/binary.ts], as the argument of [source.load]. *)
Inductive LoaderFn := textLoader | binaryLoader.

(** What [source.load] resolves to: an object whose [content] is read.
    Text and bytes are both held as strings. *)
Record Loaded := { loaded_content : string }.

Class FileLoader (W : Type) := {
  source_load : string -> LoaderFn -> W -> Outcome Loaded * W
}.

(** ** LumeSite *)

Module LumeSite.

Local Open Scope pipeline_scope.

(** *** Construction and registration (pure) *)

Definition withSource (f : Source -> Source) (s : Site) : Site :=
  {| options := options s; source := f (source s);
     listeners := listeners s; pages := pages s |}.

Definition src (s : Site) (rest : list string) : string :=
  Path.join (cwd (options s) :: opt_src (options s) :: rest).

Definition dest (s : Site) (rest : list string) : string :=
  Path.join (cwd (options s) :: opt_dest (options s) :: rest).

Definition ignore (paths : list string) (s : Site) : Site :=
  fold_left
    (fun acc p =>
       withSource (SiteSource.addIgnoredPath (Path.join ["/"; p])) acc)
    paths s.

Definition copy (from : string) (to : option string) (s : Site) : Site :=
  let to := default from to in
  withSource
    (SiteSource.addStaticFile (Path.join ["/"; from]) (Path.join ["/"; to])) s.

Definition constructor (deno_cwd : string) (o : PartialSiteOptions) : Site :=
  let this :=
    {| options := merge (defaults deno_cwd) o;
       source := SiteSource.new;
       listeners := ∅;
       pages := [] |} in
  if Js.startsWith (dest this []) (src this [])
  then ignore [opt_dest (options this)] this
  else this.

(** [Set.prototype.add]: insertion order, no second copy. *)
Definition setAdd (l : Listener) (ls : list Listener) : list Listener :=
  if decide (l ∈ ls) then ls else ls ++ [l].

Definition addEventListener (t : EventType) (l : Listener) (s : Site) : Site :=
  let ls := default [] (listeners s !! t) in
  let ls := setAdd l ls in
  {| options := options s; source := source s;
     listeners := <[t := ls]> (listeners s); pages := pages s |}.

(** *** The URL resolver *)

Section Url.
Context `{Externals}.

(** The tail of [url]: prefix the base path, then the origin. *)
Definition qualify (s : Site) (p : string) (absolute : bool) : string :=
  let base := pathname (location (options s)) in
  let p := if negb (Js.startsWith p base) then Path.join [base; p] else p in
  if absolute then origin (location (options s)) +:+ p else p.

Definition url (s : Site) (p : string) (absolute : bool) : Outcome string :=
  if Js.startsWith p "./" || Js.startsWith p "../"
     || Js.startsWith p "?" || Js.startsWith p "#" || Js.startsWith p "//"
  then Ret p
  else if Js.startsWith p "~/" then
    let p := Js.replaceAll "/"%char Path.SEP (Js.slice 1 p) in
    match decodeURI p with
    | None => Throw URIError
    | Some p =>
        match find (fun page =>
                      String.eqb (src_path (page_src page)
                                  +:+ src_ext (page_src page)) p)
                   (pages s) with
        | Some page => Ret (qualify s (data_url (page_data page)) absolute)
        | None =>
            match SiteSource.isStatic (source s) p with
            | Some (from, to) =>
                Ret (qualify s
                       (normalizePath
                          (Path.join [to; Js.slice (String.length from) p]))
                       absolute)
            | None => Throw (Exception "Source file not found" p)
            end
        end
    end
  else
    match newURL p with
    | Some href => Ret href
    | None => Ret (qualify s p absolute)
    end.

(** The test [/\/_data(?:\.\w+$|\/)/.test(s)]: after "/_data" comes
    either "." and word characters up to the end, or "/". *)
Definition dataTail (r : string) : bool :=
  match r with
  | String c e =>
      (Ascii.eqb c "."%char && negb (String.eqb e "") && Js.allWord e)
      || Ascii.eqb c "/"%char
  | EmptyString => false
  end.

Definition dataAt (s : string) : bool :=
  match Js.stripPrefix "/_data" s with
  | Some r => dataTail r
  | None => false
  end.

Fixpoint dataPattern (s : string) : bool :=
  dataAt s
  || match s with
     | EmptyString => false
     | String _ r => dataPattern r
     end.
End Url.

(** *** Event dispatch and the pipelines *)

Section Pipelines.
Context {W : Type}.
Context `{Externals, Scripts W, Callables W, Emitter W, Loader W,
          Renderer W, Metrics W, Concurrency W}.

Definition run (name : string) : M W bool :=
  perform (RunScript name) (scripts_run emptyOptions name).

(** One turn of the listener loop: [true] to go on with the next
    listener, [false] for [return false]. *)
Definition invoke (l : Listener) (event : Event) : M W bool :=
  match l with
  | Named name =>
      success <- run name ;;
      ret success
  | Callable ref =>
      v <- perform (CallFn ref event) (call ref event) ;;
      ret (negb (strictlyFalse v))
  end.

Fixpoint dispatchLoop (ls : list Listener) (event : Event) : M W bool :=
  match ls with
  | [] => ret true
  | l :: rest =>
      go <- invoke l event ;;
      if go then dispatchLoop rest event else ret false
  end.

(** The [Dispatch] step marks the call in the trace, so that a dispatch
    without listeners is visible too. *)
Definition dispatchEvent (event : Event) : M W bool :=
  note (Dispatch event) ;;;
  s <- getSite ;;
  match listeners s !! type event with
  | None => ret true
  | Some ls => dispatchLoop ls event
  end.

Definition clear : M W unit := perform Clear emitter_clear.

Definition copyFile (from to : string) : M W unit :=
  perform (CopyFile from to) (emitter_copyFile from to).

Definition loadDirectory : M W unit :=
  s <- getSite ;;
  ps <- perform LoadDirectory (source_loadDirectory s) ;;
  setPages ps.

Definition loadFile (file : string) : M W unit :=
  s <- getSite ;;
  ps <- perform (LoadFile file) (source_loadFile file s) ;;
  setPages ps.

Definition buildPages : M W unit :=
  s <- getSite ;;
  ps <- perform (BuildPages (source_pages (source s)))
          (renderer_buildPages (source_pages (source s)) s) ;;
  setPages ps.

Definition savePages : M W unit :=
  s <- getSite ;;
  perform (SavePages (pages s)) (concurrent (pages s) emitter_savePage).

Definition start (label : string) : M W unit :=
  perform (MetricStart label) (metrics_start label).

Definition stop (label : string) : M W unit :=
  perform (MetricStop label) (metric_stop label).

Fixpoint copyAll (entries : list (string * string)) : M W unit :=
  match entries with
  | [] => ret tt
  | (from, to) :: rest => copyFile from to ;;; copyAll rest
  end.

Definition flushMetrics : M W unit :=
  s <- getSite ;;
  match metrics (options s) with
  | MetricsFile file => 
      perform (MetricsSave (Path.join [cwd (options s); file]))
              (metrics_save (Path.join [cwd (options s); file]))
  | MetricsFlag true => perform MetricsPrint metrics_print
  | MetricsFlag false => ret tt
  end.

Definition build : M W unit :=
  start "Build (entire site)" ;;;
  _ <- dispatchEvent {| type := beforeBuild; files := None |} ;;
  clear ;;;
  start "Copy (all files)" ;;;
  s <- getSite ;;
  copyAll (staticFiles (source s)) ;;;
  stop "Copy (all files)" ;;;
  start "Load (all pages)" ;;;
  loadDirectory ;;;
  stop "Load (all pages)" ;;;
  start "Preprocess + render + process (all pages)" ;;;
  buildPages ;;;
  stop "Preprocess + render + process (all pages)" ;;;
  _ <- dispatchEvent {| type := beforeSave; files := None |} ;;
  start "Save (all pages)" ;;;
  savePages ;;;
  stop "Save (all pages)" ;;;
  stop "Build (entire site)" ;;;
  _ <- dispatchEvent {| type := afterBuild; files := None |} ;;
  flushMetrics.

(** The body of the loop over the changed files. *)
Definition updateFile (file : string) : M W unit :=
  s <- getSite ;;
  match SiteSource.isStatic (source s) file with
  | Some (from, to) =>
      copyFile file (Path.join [to; Js.slice (String.length from) file])
  | None =>
      if SiteSource.isIgnored (source s) file then ret tt
      else
        let normalized := normalizePath file in
        if dataPattern normalized then loadFile file
        else if Js.includes normalized "/_" || Js.includes normalized "/."
        then ret tt
        else loadFile file
  end.

Fixpoint updateFiles (fs : list string) : M W unit :=
  match fs with
  | [] => ret tt
  | file :: rest => updateFile file ;;; updateFiles rest
  end.

Definition update (fs : list string) : M W unit :=
  _ <- dispatchEvent {| type := beforeUpdate; files := Some fs |} ;;
  updateFiles fs ;;;
  buildPages ;;;
  _ <- dispatchEvent {| type := beforeSave; files := None |} ;;
  savePages ;;;
  _ <- dispatchEvent {| type := afterUpdate; files := Some fs |} ;;
  ret tt.

End Pipelines.

(** *** The update classifier

    The loop body of [update] takes one of five branches; [classify]
    names the branch, [act] is what the branch does. *)

Inductive Class :=
  | Static (from to : string)
  | Ignored
  | DataReload
  | HiddenSkip
  | GenericReload.

Section Classifier.
Context {W : Type}.
Context `{Externals, Emitter W, Loader W}.

Definition hidden (normalized : string) : bool :=
  Js.includes normalized "/_" || Js.includes normalized "/.".

Definition classify (s : Site) (file : string) : Class :=
  match SiteSource.isStatic (source s) file with
  | Some (from, to) => Static from to
  | None =>
      if SiteSource.isIgnored (source s) file then Ignored
      else if dataPattern (normalizePath file) then DataReload
      else if hidden (normalizePath file) then HiddenSkip
      else GenericReload
  end.

Definition act (c : Class) (file : string) : M W unit :=
  match c with
  | Static from to =>
      copyFile file (Path.join [to; Js.slice (String.length from) file])
  | Ignored => ret tt
  | DataReload => loadFile file
  | HiddenSkip => ret tt
  | GenericReload => loadFile file
  end.
End Classifier.


(** *** The content of a file or page *)

Section Files.
Context {W : Type}.
Context `{FileLoader W}.

(** [(await this.source.load(file, binaryLoader)).content] *)
Definition loadContent (file : string) (w : W) : Outcome string * W :=
  match source_load file binaryLoader w with
  | (Ret loaded, w') => (Ret (loaded_content loaded), w')
  | (Throw e, w') => (Throw e, w')
  end.

Definition getFileContent (s : Site) (u : string) (w : W)
    : Outcome string * W :=
  match find (fun page => String.eqb (data_url (page_data page)) u)
             (pages s) with
  | Some page => (Ret (page_content page), w)
  | None =>
      match find (fun entry => Js.startsWith u (snd entry))
                 (staticFiles (source s)) with
      | Some (from, to) =>
          loadContent (src s [from; Js.slice (String.length to) u]) w
      | None => loadContent (src s [u]) w
      end
  end.
End Files.

End LumeSite.

(** ** The Eta engine adapter (engines/eta.ts)

    The eta library is behind [EtaLib]: [compile] turns a template text
    into a template function (or throws) under the configuration in
    force, [runTemplate] calls a template function.  The library's
    template cache and configuration are one shared object, [Engine]. *)

Module Eta.

(** A helper function, by reference. *)
Definition Helper := nat.

(** A value of the data object handed to a template: the record of
    filters, or anything else. *)
Inductive DataValue :=
  | Filters (fs : gmap string Helper)
  | Plain (v : string).

(** The field of eta's configuration that this file sets. *)
Record Config := { async : bool }.

Record HelperOptions := { helper_type : string; helper_async : bool }.

Class EtaLib (W : Type) := {
  Template : Type;
  compile : string -> Config -> Outcome Template;
  runTemplate :
    Template -> gmap string DataValue -> Config -> W -> Outcome string * W
}.

Section Adapter.
Context {W : Type}.
Context `{EtaLib W}.

(** [typeof eta]: the template cache and the configuration. *)
Record Engine := { templates : gmap string Template; config : Config }.

(** [engine.configure({ async: true })] *)
Definition configureAsync (e : Engine) : Engine :=
  {| templates := templates e; config := {| async := true |} |}.

(** [engine.templates.define(filename, fn)] *)
Definition define (filename : string) (fn : Template) (e : Engine) : Engine :=
  {| templates := <[filename := fn]> (templates e); config := config e |}.

Record Eta := { engine : Engine; filters : gmap string Helper }.

(** The result of [render]: the outcome, the adapter and the data object
    as the call leaves them, and the world. *)
Record Rendered := {
  outcome : Outcome string;
  eta_after : Eta;
  data_after : gmap string DataValue;
  world_after : W
}.

Definition render (this : Eta) (content : string)
    (data : gmap string DataValue) (filename : string) (w : W) : Rendered :=
  let compiled :=
    match templates (engine this) !! filename with
    | Some _ => Ret this
    | None =>
        match compile content (config (engine this)) with
        | Ret fn =>
            Ret {| engine := define filename fn (engine this);
                   filters := filters this |}
        | Throw e => Throw e
        end
    end in
  match compiled with
  | Throw e =>
      {| outcome := Throw e; eta_after := this; data_after := data;
         world_after := w |}
  | Ret this' =>
      let data' := <["filters" := Filters (filters this')]> data in
      match templates (engine this') !! filename with
      | Some fn =>
          let '(o, w') := runTemplate fn data' (config (engine this')) w in
          {| outcome := o; eta_after := this'; data_after := data';
             world_after := w' |}
      | None =>
          (* [fn] would be [undefined]: calling it is a TypeError *)
          {| outcome := Throw (Raised 0); eta_after := this';
             data_after := data'; world_after := w |}
      end
  end.

Definition addHelper (this : Eta) (name : string) (fn : Helper)
    (options : HelperOptions) : Eta :=
  if String.eqb (helper_type options) "filter" then
    {| engine := if helper_async options then configureAsync (engine this)
                 else engine this;
       filters := <[name := fn]> (filters this) |}
  else this.

End Adapter.

End Eta.

(** ** The spec's reading of a data path

    "a path segment literally named [_data], either as a file with any
    extension or as a directory": a segment [_data] that is followed by
    another segment, or a last segment [_data.<ext>] with a non-empty
    extension (what follows the last dot). *)

Module SpecWords.

Definition isExtension (e : string) : bool :=
  negb (String.eqb e "") && negb (Js.includes e ".").

Definition isDataFileName (seg : string) : bool :=
  match Js.stripPrefix "_data." seg with
  | Some e => isExtension e
  | None => false
  end.

Fixpoint hasDataSegment (segs : list string) : bool :=
  match segs with
  | [] => false
  | [seg] => isDataFileName seg
  | seg :: rest => String.eqb seg "_data" || hasDataSegment rest
  end.

Definition isDataPath (normalized : string) : bool :=
  hasDataSegment (Js.split normalized).

End SpecWords.

(** ** Phases of a run: the steps that are not listener calls or timers *)

Inductive Phase :=
  | PhDispatch (t : EventType)
  | PhClear
  | PhCopy (from to : string)
  | PhLoadAll
  | PhLoadFile (file : string)
  | PhRenderAll
  | PhSaveAll
  | PhMetricsSave (file : string)
  | PhMetricsPrint.

Definition phaseOf (s : Step) : option Phase :=
  match s with
  | Dispatch e => Some (PhDispatch (type e))
  | Clear => Some PhClear
  | CopyFile from to => Some (PhCopy from to)
  | LoadDirectory => Some PhLoadAll
  | LoadFile f => Some (PhLoadFile f)
  | BuildPages _ => Some PhRenderAll
  | SavePages _ => Some PhSaveAll
  | MetricsSave f => Some (PhMetricsSave f)
  | MetricsPrint => Some PhMetricsPrint
  | RunScript _ | CallFn _ _ | MetricStart _ | MetricStop _ => None
  end.

Definition phases (tr : list Step) : list Phase := omap phaseOf tr.

(** The step that invoking a listener leaves in the trace. *)
Definition invocation (event : Event) (l : Listener) : Step :=
  match l with
  | Named name => RunScript name
  | Callable ref => CallFn ref event
  end.

(** [MetricsFlush], by metrics mode. *)
Definition flushPhases (o : SiteOptions) : list Phase :=
  match metrics o with
  | MetricsFile file => [PhMetricsSave (Path.join [cwd o; file])]
  | MetricsFlag true => [PhMetricsPrint]
  | MetricsFlag false => []
  end.

Definition buildPhases (s : Site) : list Phase :=
  [PhDispatch beforeBuild; PhClear]
  ++ map (fun e => PhCopy (fst e) (snd e)) (staticFiles (source s))
  ++ [PhLoadAll; PhRenderAll; PhDispatch beforeSave; PhSaveAll;
      PhDispatch afterBuild]
  ++ flushPhases (options s).

(** The phases of one changed file, by the branch the loop body takes. *)
Definition filePhases `{Externals} (s : Site) (file : string) : list Phase :=
  match LumeSite.classify s file with
  | LumeSite.Static from to =>
      [PhCopy file (Path.join [to; Js.slice (String.length from) file])]
  | LumeSite.Ignored | LumeSite.HiddenSkip => []
  | LumeSite.DataReload | LumeSite.GenericReload => [PhLoadFile file]
  end.

Definition updatePhases `{Externals} (s : Site) (fs : list string) : list Phase :=
  [PhDispatch beforeUpdate]
  ++ flat_map (filePhases s) fs
  ++ [PhRenderAll; PhDispatch beforeSave; PhSaveAll; PhDispatch afterUpdate].

(** Two sites with the same options and registries (the page collections
    may differ). *)
Definition sameRegistries (s s' : Site) : Prop :=
  options s = options s'
  /\ staticFiles (source s) = staticFiles (source s')
  /\ ignored (source s) = ignored (source s')
  /\ listeners s = listeners s'.

(** [x] occurs in [l] at most once, exactly once. *)
Definition atMostOnce {A} (x : A) (l : list A) : Prop :=
  forall i j, l !! i = Some x -> l !! j = Some x -> i = j.

Definition exactlyOnce {A} (x : A) (l : list A) : Prop :=
  x ∈ l /\ atMostOnce x l.

(** The source path of a page as [url] compares it. *)
Definition sourceFile (page : Page) : string :=
  src_path (page_src page) +:+ src_ext (page_src page).

(** A plain segment: not empty, not ".", not "..". *)
Definition plainSegment (seg : string) : bool :=
  negb (String.eqb seg "") && negb (String.eqb seg ".")
  && negb (String.eqb seg "..").

(** A relative path already in normal form: plain segments separated by
    single "/". *)
Definition plainRelative (p : string) : bool :=
  forallb plainSegment (Js.split p).

(** What may follow "/_data" for the data pattern to match: a "/", or "."
    and one or more word characters that end the path. *)
Definition dataSuffix (post : string) : Prop :=
  (exists r, post = "/" +:+ r)
  \/ (exists e, post = "." +:+ e /\ e <> "" /\ Js.allWord e = true).

(** [addEventListener] called for each listener of [ls] in turn. *)
Definition registerAll (t : EventType) (ls : list Listener) (s : Site) : Site :=
  fold_left (fun acc l => LumeSite.addEventListener t l acc) ls s.

(** The listener sets of a site hold no listener twice, as a [Set] does. *)
Definition distinctListeners (s : Site) : Prop :=
  forall t ls, listeners s !! t = Some ls -> NoDup ls.

Section RunVocabulary.
Context {W : Type}.
Context `{Externals, Scripts W, Callables W, Emitter W, Loader W,
          Renderer W, Metrics W, Concurrency W}.

(** Every listener of [ls], invoked in turn from [st], lets the loop go
    on, and the last one leaves the state [st']. *)
Inductive Passes (event : Event) : list Listener -> St W -> St W -> Prop :=
  | passes_nil st : Passes event [] st st
  | passes_cons l ls st st1 st2 :
      LumeSite.invoke l event st = (Ret true, st1) ->
      Passes event ls st1 st2 ->
      Passes event (l :: ls) st st2.

(** No collaborator call and no listener throws. *)
Record NoThrow : Prop := {
  run_returns : forall name w,
    exists b w', scripts_run emptyOptions name w = (Ret b, w');
  call_returns : forall ref e w,
    exists v w', call ref e w = (Ret v, w');
  clear_returns : forall w,
    exists w', emitter_clear w = (Ret tt, w');
  copyFile_returns : forall from to w,
    exists w', emitter_copyFile from to w = (Ret tt, w');
  save_returns : forall ps w,
    exists w', concurrent ps emitter_savePage w = (Ret tt, w');
  loadDirectory_returns : forall s w,
    exists ps w', source_loadDirectory s w = (Ret ps, w');
  loadFile_returns : forall f s w,
    exists ps w', source_loadFile f s w = (Ret ps, w');
  buildPages_returns : forall ps s w,
    exists ps' w', renderer_buildPages ps s w = (Ret ps', w');
  start_returns : forall label w,
    exists w', metrics_start label w = (Ret tt, w');
  stop_returns : forall label w,
    exists w', metric_stop label w = (Ret tt, w');
  metrics_save_returns : forall f w,
    exists w', metrics_save f w = (Ret tt, w');
  metrics_print_returns : forall w,
    exists w', metrics_print w = (Ret tt, w')
}.

(** From any state over the registries of [s0], [m] returns, keeps the
    registries, and adds exactly the phases [ph]. *)
Definition yields {A} (s0 : Site) (m : M W A) (ph : list Phase) : Prop :=
  forall st, sameRegistries s0 (st_site st) ->
    exists a st',
      m st = (Ret a, st')
      /\ sameRegistries s0 (st_site st')
      /\ phases (st_trace st') = phases (st_trace st) ++ ph.

(** From any state over the registries of [s0], whatever the outcome of
    [m], the registries are kept and the phases added are an initial part
    of [ph]: all of [ph] when [m] returns. *)
Definition within {A} (s0 : Site) (m : M W A) (ph : list Phase) : Prop :=
  forall st o st',
    sameRegistries s0 (st_site st) -> m st = (o, st') ->
    sameRegistries s0 (st_site st')
    /\ exists done rest,
         ph = done ++ rest
         /\ phases (st_trace st') = phases (st_trace st) ++ done
         /\ ((exists a, o = Ret a) -> rest = []).

(** *** Executing a trace

    What each step of a trace stands for: the collaborator call it
    records, made on the world the step before it left.  A render is the
    renderer called on all of [source.pages], a save is the concurrent
    save of all of [site.pages]; the loader and the renderer may replace
    the page collections; a [Dispatch] mark is no call. *)

Definition withPages (ps : list Page * list Page) (s : Site) : Site :=
  {| options := options s;
     source := {| staticFiles := staticFiles (source s);
                  ignored := ignored (source s);
                  source_pages := fst ps |};
     listeners := listeners s;
     pages := snd ps |}.

Definition void {A} (o : Outcome A) : Outcome unit :=
  match o with
  | Ret _ => Ret tt
  | Throw e => Throw e
  end.

Definition called {A} (s : Site) (r : Outcome A * W) : Outcome unit * Site * W :=
  (void (fst r), s, snd r).

Definition paged (s : Site) (r : Outcome (list Page * list Page) * W)
    : Outcome unit * Site * W :=
  match r with
  | (Ret ps, w) => (Ret tt, withPages ps s, w)
  | (Throw e, w) => (Throw e, s, w)
  end.

Definition doStep (step : Step) (s : Site) (w : W) : Outcome unit * Site * W :=
  match step with
  | Dispatch _ => (Ret tt, s, w)
  | RunScript name => called s (scripts_run emptyOptions name w)
  | CallFn ref event => called s (call ref event w)
  | Clear => called s (emitter_clear w)
  | CopyFile from to => called s (emitter_copyFile from to w)
  | LoadDirectory => paged s (source_loadDirectory s w)
  | LoadFile file => paged s (source_loadFile file s w)
  | BuildPages _ =>
      paged s (renderer_buildPages (source_pages (source s)) s w)
  | SavePages _ => called s (concurrent (pages s) emitter_savePage w)
  | MetricStart label => called s (metrics_start label w)
  | MetricStop label => called s (metric_stop label w)
  | MetricsSave file => called s (metrics_save file w)
  | MetricsPrint => called s (metrics_print w)
  end.

Fixpoint replay (steps : list Step) (s : Site) (w : W)
    : Outcome unit * Site * W :=
  match steps with
  | [] => (Ret tt, s, w)
  | step :: rest =>
      match doStep step s w with
      | (Ret _, s', w') => replay rest s' w'
      | (Throw e, s', w') => (Throw e, s', w')
      end
  end.

(** The run of [m] from [st] that ended in [st'] with outcome [o] did to
    the site and the world exactly what its [steps] stand for. *)
Definition executed {A} (st : St W) (o : Outcome A) (st' : St W)
    (steps : list Step) : Prop :=
  st_trace st' = st_trace st ++ steps
  /\ replay steps (st_site st) (st_world st)
     = (void o, st_site st', st_world st').

(** Every run of [m] executes the steps it records. *)
Definition faithful {A} (m : M W A) : Prop :=
  forall st o st', m st = (o, st') -> exists steps, executed st o st' steps.
End RunVocabulary.

(** ** A plain environment for the examples

    Exact on the inputs the examples use: paths without "%" (there
    [decodeURI] returns its argument), strings that are not absolute URLs
    (there [new URL] throws), POSIX separators (there [normalizePath]
    returns its argument). *)
Definition plainExternals : Externals :=
  {| decodeURI := fun s => if Js.includes s "%" then None else Some s;
     newURL := fun _ => None;
     normalizePath := fun s => s |}.

(** ** A small site and a quiet world for the examples *)

Definition exampleSite : Site :=
  LumeSite.constructor "/home/u/site" noOptions.

(** [site.copy("assets")], then [site.ignore("assets")]. *)
Definition assetsSite : Site :=
  LumeSite.ignore ["assets"] (LumeSite.copy "assets" None exampleSite).

Definition aboutPage : Page :=
  {| page_src := {| src_path := "/about"; src_ext := ".md" |};
     page_data := {| data_url := "/about/" |};
     page_content := "<h1>About</h1>" |}.

(** A site served under the base path "/blog/", with one loaded page. *)
Definition blogSite : Site :=
  let s :=
    LumeSite.constructor "/home/u/site"
      {| p_cwd := None; p_src := None; p_dest := None; p_includes := None;
         p_location :=
           Some {| origin := "https://example.com"; pathname := "/blog/" |};
         p_metrics := None; p_quiet := None; p_dev := None;
         p_prettyUrls := None; p_flags := None; p_server := None |} in
  {| options := options s; source := source s; listeners := listeners s;
     pages := [aboutPage] |}.

(** A site with three [beforeBuild] listeners and one static mapping. *)
Definition busSite : Site :=
  LumeSite.addEventListener beforeBuild (Callable 3)
    (LumeSite.addEventListener beforeBuild (Callable 2)
       (LumeSite.addEventListener beforeBuild (Callable 1)
          (LumeSite.copy "assets" None exampleSite))).

(** The world counts the collaborator calls.  Callable 0 returns
    [undefined], 1 returns [true], 2 returns [false]; the command "veto"
    fails, every other command succeeds. *)
Definition quietScripts : Scripts nat :=
  {| CommandOptions := unit;
     emptyOptions := tt;
     scripts_run := fun _ name w => (Ret (negb (String.eqb name "veto")), S w) |}.

Definition quietCallables : Callables nat :=
  {| call := fun ref _ w =>
       (Ret match ref with
            | 0 => JsUndefined
            | 1 => JsBoolean true
            | 2 => JsBoolean false
            | S (S (S n)) => JsOther n
            end, S w) |}.

Definition quietEmitter : Emitter nat :=
  {| emitter_clear := fun w => (Ret tt, S w);
     emitter_copyFile := fun _ _ w => (Ret tt, S w);
     emitter_savePage := fun _ w => (Ret tt, S w) |}.

Definition quietLoader : Loader nat :=
  {| source_loadDirectory := fun s w =>
       (Ret (source_pages (source s), pages s), S w);
     source_loadFile := fun _ s w =>
       (Ret (source_pages (source s), pages s), S w) |}.

Definition quietRenderer : Renderer nat :=
  {| renderer_buildPages := fun ps s w => (Ret (ps, ps), S w) |}.

Definition quietMetrics : Metrics nat :=
  {| metrics_start := fun _ w => (Ret tt, S w);
     metric_stop := fun _ w => (Ret tt, S w);
     metrics_save := fun _ w => (Ret tt, S w);
     metrics_print := fun w => (Ret tt, S w) |}.

(** One schedule of [concurrent]: the pages one after the other, stopping
    at the first failure. *)
Fixpoint oneByOne {W} (ps : list Page) (f : Page -> W -> Outcome unit * W)
    (w : W) : Outcome unit * W :=
  match ps with
  | [] => (Ret tt, w)
  | p :: rest =>
      match f p w with
      | (Ret _, w') => oneByOne rest f w'
      | (Throw e, w') => (Throw e, w')
      end
  end.

Definition quietConcurrency : Concurrency nat :=
  {| concurrent := oneByOne |}.

Definition startOf (s : Site) : St nat :=
  {| st_site := s; st_world := 0; st_trace := [] |}.

Definition beforeBuildEvent : Event := {| type := beforeBuild; files := None |}.

(** ** Further vocabulary *)

(** The state [st] seen from another site. *)
Definition onSite {W} (s : Site) (st : St W) : St W :=
  {| st_site := s; st_world := st_world st; st_trace := st_trace st |}.

(** The steps a run added to the trace are [steps]. *)
Definition added {W} (st st' : St W) (steps : list Step) : Prop :=
  st_trace st' = st_trace st ++ steps.

(** The prefixes that [url] returns untouched. *)
Definition isSpecial (p : string) : bool :=
  Js.startsWith p "./" || Js.startsWith p "../"
  || Js.startsWith p "?" || Js.startsWith p "#" || Js.startsWith p "//".

(** The paths that [url] returns without looking at [absolute]: the
    special prefixes, and what parses as a URL (the source marker apart). *)
Definition passesThrough `{Externals} (p : string) : bool :=
  isSpecial p
  || (negb (Js.startsWith p "~/")
      && match newURL p with Some _ => true | None => false end).

(** What [update] may add to the phases of a run over the changed files
    [fs]: its three dispatches, render, save, and a copy or a reload of a
    changed file. *)
Definition updatePhase (fs : list string) (ph : Phase) : Prop :=
  match ph with
  | PhDispatch t => t = beforeUpdate \/ t = beforeSave \/ t = afterUpdate
  | PhCopy file _ => file ∈ fs
  | PhLoadFile file => file ∈ fs
  | PhRenderAll | PhSaveAll => True
  | PhClear | PhLoadAll | PhMetricsSave _ | PhMetricsPrint => False
  end.

(** A sequence of [addHelper] calls, in order. *)
Definition addHelpers {W} `{Eta.EtaLib W} (this : Eta.Eta)
    (hs : list (string * Eta.Helper * Eta.HelperOptions)) : Eta.Eta :=
  fold_left (fun acc h => Eta.addHelper acc (fst (fst h)) (snd (fst h)) (snd h))
    hs this.

(** A registration that asks for asynchronous templates. *)
Definition asksAsync (h : string * Eta.Helper * Eta.HelperOptions) : bool :=
  String.eqb (Eta.helper_type (snd h)) "filter" && Eta.helper_async (snd h).

(** ** Further examples: collaborators that fail, a file loader, an eta *)

(** As [quietCallables], but the function object 9 throws. *)
Definition faultyCallables : Callables nat :=
  {| call := fun ref e w =>
       match ref with
       | 9 => (Throw (Raised 9), S w)
       | _ => @call nat quietCallables ref e w
       end |}.

(** As [quietEmitter], but copying "/broken" throws. *)
Definition faultyEmitter : Emitter nat :=
  {| emitter_clear := fun w => (Ret tt, S w);
     emitter_copyFile := fun from _ w =>
       if String.eqb from "/broken" then (Throw (Raised 1), S w)
       else (Ret tt, S w);
     emitter_savePage := fun _ w => (Ret tt, S w) |}.

(** A loader that returns the name of the file as its content. *)
Definition quietFiles : FileLoader nat :=
  {| source_load := fun file _ w => (Ret {| loaded_content := file |}, S w) |}.

(** An eta whose template functions are their texts: a text that starts
    with "!" does not compile, running a template returns its text. *)
Definition plainEta : Eta.EtaLib nat :=
  {| Eta.Template := string;
     Eta.compile := fun content _ =>
       if Js.startsWith content "!" then Throw (Raised 2) else Ret content;
     Eta.runTemplate := fun fn _ _ w => (Ret fn, S w) |}.

(** A site whose destination is beside its source. *)
Definition splitSite : Site :=
  LumeSite.constructor "/home/u/site"
    {| p_cwd := None; p_src := Some "./src"; p_dest := Some "./out";
       p_includes := None; p_location := None; p_metrics := None;
       p_quiet := None; p_dev := None; p_prettyUrls := None;
       p_flags := None; p_server := None |}.

(** A site whose destination is inside its source, the source being a
    directory of the working directory. *)
Definition nestedSite : Site :=
  LumeSite.constructor "/home/u/site"
    {| p_cwd := None; p_src := Some "./src"; p_dest := Some "./src/out";
       p_includes := None; p_location := None; p_metrics := None;
       p_quiet := None; p_dev := None; p_prettyUrls := None;
       p_flags := None; p_server := None |}.

(** A site whose second [beforeBuild] listener is the function object 9. *)
Definition faultySite : Site :=
  registerAll beforeBuild [Callable 1; Callable 9; Callable 3] exampleSite.

(** [site.copy("assets")]. *)
Definition staticSite : Site := LumeSite.copy "assets" None exampleSite.

(** An adapter with nothing registered, and the same after a first render
    of "page.eta". *)
Definition emptyEta : @Eta.Eta nat plainEta :=
  {| Eta.engine := {| Eta.templates := ∅;
                      Eta.config := {| Eta.async := false |} |};
     Eta.filters := ∅ |}.

Definition pageEta : @Eta.Eta nat plainEta :=
  Eta.eta_after (Eta.render emptyEta "Hello" ∅ "page.eta" 0).

(** * Properties *)

(** ** Strings and paths *)

Section StringFacts.

Lemma append_cons (a : ascii) (s t : string) :
  String a s +:+ t = String a (s +:+ t).
Proof. reflexivity. Qed.

Lemma append_nil_l (t : string) : "" +:+ t = t.
Proof. reflexivity. Qed.

Lemma append_empty_r (s : string) : s +:+ "" = s.
Proof.
  induction s as [|a s IH]; [reflexivity|].
  now rewrite append_cons, IH.
Qed.

Lemma append_assoc (a b c : string) : (a +:+ b) +:+ c = a +:+ (b +:+ c).
Proof.
  induction a as [|x a IH]; [reflexivity|].
  now rewrite !append_cons, IH.
Qed.

Lemma startsWith_cons (c : ascii) (s : string) :
  Js.startsWith (String c s) (String c "") = true.
Proof.
  unfold Js.startsWith; simpl.
  destruct (ascii_dec c c) as [_|n]; [now destruct s | now destruct n].
Qed.

Lemma startsWith_spec (s p : string) :
  Js.startsWith s p = true <-> exists r, s = p +:+ r.
Proof.
  unfold Js.startsWith. revert s.
  induction p as [|a p IH]; intros s; simpl.
  - split; [intros _; exists s; now destruct s | now destruct s].
  - destruct s as [|b s]; simpl.
    + split; [discriminate | intros [r Hr]; discriminate].
    + destruct (ascii_dec a b) as [->|n].
      * rewrite IH. split; intros [r Hr]; exists r; [now rewrite Hr|].
        now injection Hr.
      * split; [discriminate | intros [r Hr]; injection Hr; intros _ E].
        now destruct n.
Qed.

Lemma replaceAll_SEP (s : string) : Js.replaceAll "/"%char Path.SEP s = s.
Proof.
  induction s as [|a s IH]; simpl; [reflexivity|].
  destruct (Ascii.eqb_spec a "/"%char) as [->|_]; now rewrite IH.
Qed.

Lemma split_not_nil (s : string) : Js.split s <> [].
Proof.
  induction s as [|a s IH]; simpl; [discriminate|].
  destruct (Ascii.eqb a "/"); [discriminate|].
  destruct (Js.split s); [now destruct IH | discriminate].
Qed.

Lemma concat_split (s : string) : String.concat "/" (Js.split s) = s.
Proof.
  induction s as [|a s IH]; simpl; [reflexivity|].
  pose proof (split_not_nil s) as Hn.
  destruct (Js.split s) as [|h t]; [now destruct Hn|].
  destruct (Ascii.eqb_spec a "/"%char) as [->|_].
  - change (String.concat "/" ("" :: h :: t))
      with ("" +:+ "/" +:+ String.concat "/" (h :: t)).
    now rewrite IH.
  - destruct t as [|h' t].
    + simpl in *. now rewrite IH.
    + change (String.concat "/" (String a h :: h' :: t))
        with (String a (h +:+ "/" +:+ String.concat "/" (h' :: t))).
      f_equal. exact IH.
Qed.

Lemma split_app_slash (r t : string) :
  Js.split (r +:+ String "/" t) = Js.split r ++ Js.split t.
Proof.
  induction r as [|a r IH]; simpl; [reflexivity|].
  rewrite IH.
  destruct (Ascii.eqb a "/"); [reflexivity|].
  pose proof (split_not_nil r) as Hn.
  destruct (Js.split r) as [|h tl]; [now destruct Hn | reflexivity].
Qed.

Lemma lastIs_spec (c : ascii) (s : string) :
  Js.lastIs c s = true -> exists r, s = r +:+ String c "".
Proof.
  induction s as [|a s IH]; [discriminate|].
  destruct s as [|b s'].
  - simpl. intros ->%Ascii.eqb_eq. now exists "".
  - intros Hl. destruct (IH Hl) as [r Hr].
    exists (String a r). simpl. now rewrite Hr.
Qed.

Lemma pushSegment_plain (b : bool) (acc : list string) (seg : string) :
  plainSegment seg = true -> Path.pushSegment b acc seg = seg :: acc.
Proof.
  unfold plainSegment, Path.pushSegment. intros Hp.
  destruct (String.eqb seg ""); [discriminate|].
  destruct (String.eqb seg "."); [discriminate|].
  destruct (String.eqb seg ".."); [discriminate | reflexivity].
Qed.

Lemma fold_pushSegment_plain (b : bool) (segs acc : list string) :
  forallb plainSegment segs = true ->
  fold_left (Path.pushSegment b) segs acc = rev segs ++ acc.
Proof.
  revert acc. induction segs as [|seg segs IH]; intros acc Hp; simpl in *.
  - reflexivity.
  - apply andb_prop in Hp as [Hs Hr].
    rewrite pushSegment_plain by assumption. rewrite IH by assumption.
    now rewrite <- app_assoc.
Qed.

Lemma plain_no_trailing (p : string) :
  plainRelative p = true -> Js.lastIs "/"%char p = false.
Proof.
  unfold plainRelative. intros Hp.
  destruct (Js.lastIs "/" p) eqn:Hl; [|reflexivity].
  apply lastIs_spec in Hl as [r ->].
  rewrite split_app_slash, forallb_app in Hp.
  apply andb_prop in Hp as [_ Hp]. discriminate.
Qed.

Lemma plain_not_empty (p : string) : plainRelative p = true -> p <> "".
Proof. intros Hp ->. discriminate. Qed.

Lemma join_root (p : string) :
  Path.join ["/"; p]
  = if String.eqb p "" then "/" else Path.normalize (String "/" (String "/" p)).
Proof.
  unfold Path.join; simpl. unfold Path.glue at 1.
  destruct (String.eqb p ""); reflexivity.
Qed.

Lemma normalize_absolute (r : string) :
  Path.normalize (String "/" r)
  = let body := Path.normalizeString (String "/" r) false in
    String "/" (if negb (String.eqb body "") && Js.lastIs "/" (String "/" r)
                then body +:+ "/" else body).
Proof.
  unfold Path.normalize.
  change (String.eqb (String "/" r) "") with false.
  rewrite (startsWith_cons "/" r).
  cbv zeta. change (negb true) with false.
  rewrite andb_false_r. reflexivity.
Qed.

(** [join("/", p)] always yields an absolute path. *)
Lemma join_root_absolute (p : string) :
  Js.startsWith (Path.join ["/"; p]) "/" = true.
Proof.
  rewrite join_root. destruct (String.eqb p ""); [reflexivity|].
  rewrite normalize_absolute. apply startsWith_cons.
Qed.

(** On a relative path in normal form [join("/", p)] only prefixes "/". *)
Lemma join_root_plain (p : string) :
  plainRelative p = true -> Path.join ["/"; p] = String "/" p.
Proof.
  intros Hp. pose proof (plain_not_empty p Hp) as Hne.
  rewrite join_root. apply String.eqb_neq in Hne. rewrite Hne.
  rewrite normalize_absolute.
  assert (Js.lastIs "/" (String "/" (String "/" p)) = false) as ->.
  { destruct p as [|a p']; [discriminate|].
    change (Js.lastIs "/" (String "/" (String "/" (String a p'))))
      with (Js.lastIs "/" (String a p')).
    now apply plain_no_trailing. }
  unfold Path.normalizeString.
  change (Js.split (String "/" (String "/" p))) with ("" :: "" :: Js.split p).
  cbn [fold_left]. change (Path.pushSegment false [] "") with (@nil string).
  rewrite fold_pushSegment_plain by exact Hp.
  rewrite app_nil_r, rev_involutive, concat_split.
  cbv zeta. rewrite andb_false_r. reflexivity.
Qed.

End StringFacts.

(** ** Registration: [constructor], [ignore], [copy], [addEventListener] *)

Section Registration.

Lemma constructor_options (deno_cwd : string) (o : PartialSiteOptions) :
  options (LumeSite.constructor deno_cwd o) = merge (defaults deno_cwd) o.
Proof.
  unfold LumeSite.constructor.
  destruct (Js.startsWith _ _); reflexivity.
Qed.

Lemma isIgnored_member (s : Source) (p file : string) :
  p ∈ ignored s -> Js.startsWith file p = true ->
  SiteSource.isIgnored s file = true.
Proof.
  intros Hin Hp. unfold SiteSource.isIgnored.
  apply existsb_exists. exists p. split; [|exact Hp].
  now apply list_elem_of_In.
Qed.

Lemma setAdd_NoDup (l : Listener) (ls : list Listener) :
  NoDup ls -> NoDup (LumeSite.setAdd l ls).
Proof.
  intros Hnd. unfold LumeSite.setAdd.
  destruct (decide (l ∈ ls)) as [|Hni]; [exact Hnd|].
  apply NoDup_app. split; [exact Hnd|]. split.
  - intros x Hx ->%list_elem_of_singleton. contradiction.
  - apply NoDup_singleton.
Qed.

Lemma setAdd_member (l : Listener) (ls : list Listener) :
  l ∈ LumeSite.setAdd l ls.
Proof.
  unfold LumeSite.setAdd.
  destruct (decide (l ∈ ls)); [assumption|].
  apply elem_of_app. right. now apply list_elem_of_singleton.
Qed.

Lemma setAdd_again (l : Listener) (ls : list Listener) :
  LumeSite.setAdd l (LumeSite.setAdd l ls) = LumeSite.setAdd l ls.
Proof.
  unfold LumeSite.setAdd at 1.
  destruct (decide (l ∈ LumeSite.setAdd l ls)) as [|Hni]; [reflexivity|].
  destruct Hni. apply setAdd_member.
Qed.

Lemma addEventListener_lookup (t : EventType) (l : Listener) (s : Site) :
  listeners (LumeSite.addEventListener t l s) !! t
  = Some (LumeSite.setAdd l (default [] (listeners s !! t))).
Proof. unfold LumeSite.addEventListener; simpl. apply lookup_insert_eq. Qed.

Lemma addEventListener_distinct (t : EventType) (l : Listener) (s : Site) :
  distinctListeners s -> distinctListeners (LumeSite.addEventListener t l s).
Proof.
  intros Hd t' ls. unfold LumeSite.addEventListener; simpl.
  destruct (decide (t = t')) as [<-|Hne].
  - rewrite lookup_insert_eq. intros [= <-]. apply setAdd_NoDup.
    destruct (listeners s !! t) as [ls0|] eqn:E; simpl.
    + now apply (Hd t).
    + apply NoDup_nil_2.
  - rewrite lookup_insert_ne by exact Hne. apply Hd.
Qed.

Lemma constructor_distinct (deno_cwd : string) (o : PartialSiteOptions) :
  distinctListeners (LumeSite.constructor deno_cwd o).
Proof.
  intros t ls. unfold LumeSite.constructor.
  destruct (Js.startsWith _ _); simpl; now rewrite lookup_empty.
Qed.

Lemma addEventListener_twice (t : EventType) (l : Listener) (s : Site) :
  LumeSite.addEventListener t l (LumeSite.addEventListener t l s)
  = LumeSite.addEventListener t l s.
Proof.
  unfold LumeSite.addEventListener at 1.
  rewrite addEventListener_lookup. simpl default.
  rewrite setAdd_again.
  unfold LumeSite.addEventListener; simpl.
  now rewrite insert_insert_eq.
Qed.

(** Distinct listeners registered one after the other are held in that
    order, after the ones already there. *)
Lemma registerAll_lookup (t : EventType) (ls : list Listener) (s : Site) :
  ls <> [] ->
  NoDup (default [] (listeners s !! t) ++ ls) ->
  listeners (registerAll t ls s) !! t
  = Some (default [] (listeners s !! t) ++ ls).
Proof.
  revert s. induction ls as [|l ls IH]; intros s Hne Hnd; [now destruct Hne|].
  cbn [registerAll fold_left].
  pose proof (addEventListener_lookup t l s) as Hl.
  assert (Hs : LumeSite.setAdd l (default [] (listeners s !! t))
               = default [] (listeners s !! t) ++ [l]).
  { unfold LumeSite.setAdd.
    destruct (decide (l ∈ default [] (listeners s !! t))) as [Hin|]; [|reflexivity].
    apply NoDup_app in Hnd as (_ & Hd & _).
    destruct (Hd l Hin). apply list_elem_of_here. }
  rewrite Hs in Hl.
  destruct ls as [|l' ls].
  - exact Hl.
  - change (fold_left (fun acc l0 => LumeSite.addEventListener t l0 acc)
              (l' :: ls) (LumeSite.addEventListener t l s))
      with (registerAll t (l' :: ls) (LumeSite.addEventListener t l s)).
    rewrite IH.
    + rewrite Hl. simpl. now rewrite <- app_assoc.
    + discriminate.
    + rewrite Hl. simpl. now rewrite <- app_assoc.
Qed.

(** After construction, when the destination root starts with the
    source root, the destination directory (joined onto "/") is in the
    ignored set, and every path under it is ignored. *)
Theorem constructor_ignores_dest (deno_cwd : string) (o : PartialSiteOptions) :
  let s := LumeSite.constructor deno_cwd o in
  Js.startsWith (LumeSite.dest s []) (LumeSite.src s []) = true ->
  Path.join ["/"; opt_dest (options s)] ∈ ignored (source s)
  /\ forall file,
       Js.startsWith file (Path.join ["/"; opt_dest (options s)]) = true ->
       SiteSource.isIgnored (source s) file = true.
Proof.
  intros s. unfold LumeSite.dest, LumeSite.src. subst s.
  rewrite constructor_options. intros Hin.
  assert (Hm : Path.join ["/"; opt_dest (merge (defaults deno_cwd) o)]
               ∈ ignored (source (LumeSite.constructor deno_cwd o))).
  { unfold LumeSite.constructor, LumeSite.dest, LumeSite.src.
    cbn [options]. rewrite Hin.
    cbn. apply list_elem_of_here. }
  split; [exact Hm|].
  intros file Hf. now apply (isIgnored_member _ _ _ Hm).
Qed.

(** C10 (amended). [copy(from, to)] registers, after the mappings already
    there, the pair of [join("/", from)] and [join("/", to)]; both begin
    with "/"; without a destination the destination is the source; and
    when [p] is a relative path in normal form (plain segments separated
    by single "/") [copy(p)] registers ("/" + p, "/" + p). *)
Theorem copy_registers (from : string) (to : option string) (s : Site) :
  let from' := Path.join ["/"; from] in
  let to' := Path.join ["/"; default from to] in
  staticFiles (source (LumeSite.copy from to s))
  = staticFiles (source s) ++ [(from', to')]
  /\ Js.startsWith from' "/" = true
  /\ Js.startsWith to' "/" = true
  /\ (to = None -> to' = from')
  /\ (to = None -> plainRelative from = true ->
      staticFiles (source (LumeSite.copy from to s))
      = staticFiles (source s) ++ [("/" +:+ from, "/" +:+ from)]).
Proof.
  intros from' to'. subst from' to'.
  split; [reflexivity|].
  split; [apply join_root_absolute|].
  split; [apply join_root_absolute|].
  split; [now intros ->|].
  intros -> Hp. cbn [default LumeSite.copy LumeSite.withSource source
                       SiteSource.addStaticFile staticFiles].
  now rewrite (join_root_plain from Hp).
Qed.

End Registration.

(** ** The URL resolver *)

Section UrlFacts.
Context `{Externals}.

Lemma prefix_empty (s : string) : String.prefix "" s = true.
Proof. now destruct s. Qed.

Lemma find_absent {A} (f : A -> bool) (l : list A) :
  (forall x, x ∈ l -> f x = false) -> find f l = None.
Proof.
  induction l as [|a l IH]; intros Hf; simpl; [reflexivity|].
  rewrite (Hf a) by apply list_elem_of_here.
  apply IH. intros x Hx. apply Hf. now apply list_elem_of_further.
Qed.

Lemma find_first {A} (f : A -> bool) (before after : list A) (a : A) :
  (forall x, x ∈ before -> f x = false) -> f a = true ->
  find f (before ++ a :: after) = Some a.
Proof.
  induction before as [|b before IH]; intros Hb Ha; simpl.
  - now rewrite Ha.
  - rewrite (Hb b) by apply list_elem_of_here.
    apply IH; [|exact Ha]. intros x Hx. apply Hb.
    now apply list_elem_of_further.
Qed.

(** A path with the source marker: the marker's "~" is dropped, the
    rest (with its leading "/") is decoded and looked up. *)
Lemma url_marker (s : Site) (rest : string) (absolute : bool) :
  LumeSite.url s ("~/" +:+ rest) absolute
  = match decodeURI ("/" +:+ rest) with
    | None => Throw URIError
    | Some p =>
        match find (fun page => String.eqb (sourceFile page) p) (pages s) with
        | Some page =>
            Ret (LumeSite.qualify s (data_url (page_data page)) absolute)
        | None =>
            match SiteSource.isStatic (source s) p with
            | Some (from, to) =>
                Ret (LumeSite.qualify s
                       (normalizePath
                          (Path.join [to; Js.slice (String.length from) p]))
                       absolute)
            | None => Throw (Exception "Source file not found" p)
            end
        end
    end.
Proof.
  unfold LumeSite.url.
  change ("~/" +:+ rest) with (String "~" (String "/" rest)).
  change (Js.startsWith (String "~" (String "/" rest)) "./") with false.
  change (Js.startsWith (String "~" (String "/" rest)) "../") with false.
  change (Js.startsWith (String "~" (String "/" rest)) "?") with false.
  change (Js.startsWith (String "~" (String "/" rest)) "#") with false.
  change (Js.startsWith (String "~" (String "/" rest)) "//") with false.
  change (Js.startsWith (String "~" (String "/" rest)) "~/")
    with (String.prefix "" rest).
  rewrite prefix_empty. cbn [orb].
  change (Js.slice 1 (String "~" (String "/" rest))) with ("/" +:+ rest).
  rewrite replaceAll_SEP. reflexivity.
Qed.

Lemma isStatic_absent (src : Source) (p : string) :
  (forall from to, (from, to) ∈ staticFiles src -> Js.startsWith p from = false) ->
  SiteSource.isStatic src p = None.
Proof.
  intros Hs. unfold SiteSource.isStatic. apply find_absent.
  intros [from to] Hin. simpl. now apply (Hs from to).
Qed.

(** C3 (amended). A path with the source marker whose decoded form (the
    path without its "~", so with its leading "/") is the source file of
    no loaded page and has no static mapping's source prefix as a prefix
    makes [url] throw "Source file not found" carrying the decoded path;
    for "~/blog/post.md" that path is "/blog/post.md". *)
Theorem url_source_not_found (s : Site) (rest decoded : string)
    (absolute : bool) :
  decodeURI ("/" +:+ rest) = Some decoded ->
  (forall page, page ∈ pages s -> sourceFile page <> decoded) ->
  (forall from to,
     (from, to) ∈ staticFiles (source s) ->
     Js.startsWith decoded from = false) ->
  LumeSite.url s ("~/" +:+ rest) absolute
  = Throw (Exception "Source file not found" decoded)
  /\ (rest = "blog/post.md" -> decoded = "/blog/post.md" ->
      LumeSite.url s "~/blog/post.md" absolute
      = Throw (Exception "Source file not found" "/blog/post.md")).
Proof.
  intros Hd Hp Hs.
  assert (E : LumeSite.url s ("~/" +:+ rest) absolute
              = Throw (Exception "Source file not found" decoded)).
  { rewrite url_marker, Hd.
    rewrite find_absent.
    - now rewrite isStatic_absent.
    - intros page Hin. apply String.eqb_neq. now apply Hp. }
  split; [exact E|]. intros -> ->. exact E.
Qed.

(** C5 (amended). A path with the source marker whose decoded form is
    the source file of a loaded page resolves to the [data.url] of the
    first such page, joined onto the site's base path when it does not
    start with it, and with the origin in front when an absolute URL is
    asked for; when [data.url] starts with the base path the result is
    [data.url] itself (with the origin when absolute). *)
Theorem url_page (s : Site) (rest decoded : string) (absolute : bool)
    (before after : list Page) (page : Page) :
  decodeURI ("/" +:+ rest) = Some decoded ->
  pages s = before ++ page :: after ->
  (forall q, q ∈ before -> sourceFile q <> decoded) ->
  sourceFile page = decoded ->
  let base := pathname (location (options s)) in
  let u := data_url (page_data page) in
  LumeSite.url s ("~/" +:+ rest) absolute
  = Ret (let p := if Js.startsWith u base then u else Path.join [base; u] in
         if absolute then origin (location (options s)) +:+ p else p)
  /\ (Js.startsWith u base = true ->
      LumeSite.url s ("~/" +:+ rest) absolute
      = Ret (if absolute then origin (location (options s)) +:+ u else u)).
Proof.
  intros Hd Hp Hb Hm base u.
  assert (E : LumeSite.url s ("~/" +:+ rest) absolute
              = Ret (LumeSite.qualify s u absolute)).
  { rewrite url_marker, Hd, Hp.
    rewrite (find_first _ before after page); [reflexivity| |].
    - intros q Hq. apply String.eqb_neq. now apply Hb.
    - now apply String.eqb_eq. }
  rewrite E. unfold LumeSite.qualify. fold base. split.
  - now destruct (Js.startsWith u base).
  - now intros ->.
Qed.

End UrlFacts.

(** ** The data pattern *)

Section PatternFacts.

Lemma stripPrefix_spec (p s r : string) :
  Js.stripPrefix p s = Some r <-> s = p +:+ r.
Proof.
  revert s. induction p as [|a p IH]; intros s.
  - simpl. rewrite append_nil_l. split; [now intros [= ->] | now intros ->].
  - destruct s as [|b s]; simpl.
    + split; discriminate.
    + rewrite append_cons.
      destruct (Ascii.eqb_spec a b) as [->|Hne].
      * rewrite IH. split; [now intros -> | now intros [= ->]].
      * split; [discriminate | intros [= E _]; now destruct Hne].
Qed.

Lemma dataPattern_unfold (s : string) :
  LumeSite.dataPattern s
  = LumeSite.dataAt s
    || match s with
       | EmptyString => false
       | String _ r => LumeSite.dataPattern r
       end.
Proof. destruct s; reflexivity. Qed.

Lemma dataTail_spec (post : string) :
  LumeSite.dataTail post = true <-> dataSuffix post.
Proof.
  unfold dataSuffix. destruct post as [|c e]; simpl.
  - split; [discriminate | intros [[r Hr]|[e [He _]]]; discriminate].
  - rewrite orb_true_iff, !andb_true_iff, negb_true_iff.
    rewrite !Ascii.eqb_eq, String.eqb_neq. split.
    + intros [[[-> Hne] Hw] | ->].
      * right. now exists e.
      * left. now exists e.
    + intros [[r Hr] | [e' [He [Hne Hw]]]].
      * injection Hr as -> ->. now right.
      * injection He as -> ->. now left.
Qed.

Lemma dataPattern_spec (s : string) :
  LumeSite.dataPattern s = true
  <-> exists pre post, s = pre +:+ "/_data" +:+ post /\ dataSuffix post.
Proof.
  split.
  - induction s as [|a s IH]; rewrite dataPattern_unfold;
      intros [Hat | Hrest]%orb_true_iff; try discriminate.
    + unfold LumeSite.dataAt in Hat.
      destruct (Js.stripPrefix "/_data" (String a s)) as [r|] eqn:E;
        [|discriminate].
      apply stripPrefix_spec in E. apply dataTail_spec in Hat.
      exists "", r. now rewrite append_nil_l.
    + destruct (IH Hrest) as (pre & post & -> & Hs).
      exists (String a pre), post. now rewrite append_cons.
  - intros (pre & post & -> & Hs). apply dataTail_spec in Hs.
    induction pre as [|a pre IH]; rewrite dataPattern_unfold.
    + rewrite append_nil_l. unfold LumeSite.dataAt.
      assert (Js.stripPrefix "/_data" ("/_data" +:+ post) = Some post) as ->
        by now apply stripPrefix_spec.
      now rewrite Hs.
    + rewrite append_cons, IH. apply orb_true_r.
Qed.

End PatternFacts.

(** ** The data pattern and the spec's words *)

Section SpecWordsFacts.

Lemma hasDataSegment_app (a b : list string) :
  b <> [] -> SpecWords.hasDataSegment b = true ->
  SpecWords.hasDataSegment (a ++ b) = true.
Proof.
  intros Hb Ht. induction a as [|x a IH]; [exact Ht|].
  cbn [app]. destruct (a ++ b) as [|y r] eqn:E.
  - destruct a; [now destruct Hb | discriminate].
  - change (SpecWords.hasDataSegment (x :: y :: r))
      with (String.eqb x "_data" || SpecWords.hasDataSegment (y :: r)).
    rewrite IH. apply orb_true_r.
Qed.

Lemma isWord_not_slash (c : ascii) : Js.isWord c = true -> Ascii.eqb c "/" = false.
Proof.
  intros Hw. destruct (Ascii.eqb_spec c "/"%char) as [->|]; [discriminate|reflexivity].
Qed.

Lemma isWord_not_dot (c : ascii) : Js.isWord c = true -> c <> "."%char.
Proof. intros Hw ->. discriminate. Qed.

Lemma allWord_split (e : string) : Js.allWord e = true -> Js.split e = [e].
Proof.
  induction e as [|c e IH]; [reflexivity|].
  cbn [Js.allWord Js.split]. intros [Hc He]%andb_prop.
  now rewrite (isWord_not_slash c Hc), (IH He).
Qed.

Lemma allWord_no_dot (e : string) :
  Js.allWord e = true -> Js.includes e "." = false.
Proof.
  induction e as [|c e IH]; [reflexivity|].
  cbn [Js.allWord]. intros [Hc He]%andb_prop.
  cbn [Js.includes String.prefix]. rewrite (IH He), orb_false_r.
  destruct (ascii_dec "." c) as [<-|]; [discriminate | reflexivity].
Qed.

(** Whatever the data pattern accepts has a [_data] segment in the spec's
    sense; the converse fails (see the example with "_data.yml~"). *)
Lemma dataPattern_isDataPath (s : string) :
  LumeSite.dataPattern s = true -> SpecWords.isDataPath s = true.
Proof.
  intros (pre & post & -> & Hs)%dataPattern_spec.
  unfold SpecWords.isDataPath.
  change (pre +:+ "/_data" +:+ post) with (pre +:+ String "/" ("_data" +:+ post)).
  rewrite split_app_slash.
  apply hasDataSegment_app; [apply split_not_nil|].
  destruct Hs as [[r ->] | (e & -> & Hne & Hw)].
  - change ("_data" +:+ "/" +:+ r) with ("_data" +:+ String "/" r).
    rewrite split_app_slash. cbn [Js.split app Ascii.eqb Bool.eqb].
    pose proof (split_not_nil r) as Hn.
    destruct (Js.split r); [now destruct Hn | reflexivity].
  - assert (E : Js.split ("_data" +:+ "." +:+ e) = ["_data." +:+ e]).
    { change ("_data" +:+ "." +:+ e)
        with (String "_" (String "d" (String "a" (String "t" (String "a"
               (String "." e)))))).
      cbn [Js.split Ascii.eqb Bool.eqb]. now rewrite (allWord_split e Hw). }
    rewrite E. cbn [SpecWords.hasDataSegment].
    unfold SpecWords.isDataFileName.
    assert (Js.stripPrefix "_data." ("_data." +:+ e) = Some e) as ->
      by now apply stripPrefix_spec.
    unfold SpecWords.isExtension.
    rewrite (allWord_no_dot e Hw).
    apply String.eqb_neq in Hne. now rewrite Hne.
Qed.

End SpecWordsFacts.

(** ** Event dispatch *)

Section DispatchFacts.
Context {W : Type}.
Context `{Externals, Scripts W, Callables W, Emitter W, Loader W,
          Renderer W, Metrics W, Concurrency W}.

Lemma bind_ret {A B} (m : M W A) (k : A -> M W B) (st st' : St W) (a : A) :
  m st = (Ret a, st') -> bind m k st = k a st'.
Proof. unfold bind. now intros ->. Qed.

Lemma bind_throw {A B} (m : M W A) (k : A -> M W B) (st st' : St W) (e : Exn) :
  m st = (Throw e, st') -> bind m k st = (Throw e, st').
Proof. unfold bind. now intros ->. Qed.

Lemma perform_eq {A} (s : Step) (f : W -> Outcome A * W) (st : St W)
    (o : Outcome A) (w : W) :
  f (st_world st) = (o, w) -> perform s f st = (o, logged st w s).
Proof. unfold perform. now intros ->. Qed.

Lemma invoke_named (name : string) (event : Event) (st : St W)
    (b : bool) (w : W) :
  scripts_run emptyOptions name (st_world st) = (Ret b, w) ->
  LumeSite.invoke (Named name) event st
  = (Ret b, logged st w (RunScript name)).
Proof.
  intros Hr. unfold LumeSite.invoke, LumeSite.run.
  now rewrite (bind_ret _ _ _ _ _ (perform_eq _ _ _ _ _ Hr)).
Qed.

Lemma invoke_callable (ref : nat) (event : Event) (st : St W)
    (v : JsValue) (w : W) :
  call ref event (st_world st) = (Ret v, w) ->
  LumeSite.invoke (Callable ref) event st
  = (Ret (negb (strictlyFalse v)), logged st w (CallFn ref event)).
Proof.
  intros Hr. unfold LumeSite.invoke.
  now rewrite (bind_ret _ _ _ _ _ (perform_eq _ _ _ _ _ Hr)).
Qed.

(** Whatever its outcome, an invocation leaves one step and the site as
    it was. *)
Lemma invoke_step (l : Listener) (event : Event) (st st' : St W)
    (o : Outcome bool) :
  LumeSite.invoke l event st = (o, st') ->
  st_site st' = st_site st
  /\ st_trace st' = st_trace st ++ [invocation event l].
Proof.
  destruct l as [name|ref]; unfold LumeSite.invoke, LumeSite.run, bind, perform, ret.
  - destruct (scripts_run emptyOptions name (st_world st)) as [[b|e] w];
      intros [= <- <-]; now split.
  - destruct (call ref event (st_world st)) as [[v|e] w];
      intros [= <- <-]; now split.
Qed.

Lemma dispatchLoop_cons (l : Listener) (rest : list Listener)
    (event : Event) (st st1 : St W) (go : bool) :
  LumeSite.invoke l event st = (Ret go, st1) ->
  LumeSite.dispatchLoop (l :: rest) event st
  = if go then LumeSite.dispatchLoop rest event st1 else (Ret false, st1).
Proof.
  intros Hi. cbn [LumeSite.dispatchLoop].
  rewrite (bind_ret _ _ _ _ _ Hi). now destruct go.
Qed.

Lemma passes_trace (event : Event) (ls : list Listener) (st st' : St W) :
  Passes event ls st st' ->
  st_site st' = st_site st
  /\ st_trace st' = st_trace st ++ map (invocation event) ls.
Proof.
  induction 1 as [st | l ls st st1 st2 Hi _ [IHs IHt]].
  - now rewrite app_nil_r.
  - apply invoke_step in Hi as [Hs Ht].
    rewrite IHs, IHt, Hs, Ht. split; [reflexivity|].
    now rewrite <- app_assoc.
Qed.

Lemma dispatchLoop_passes (event : Event) (ls : list Listener)
    (st st' : St W) :
  LumeSite.dispatchLoop ls event st = (Ret true, st') <->
  Passes event ls st st'.
Proof.
  split.
  - revert st. induction ls as [|l ls IH]; intros st.
    + intros [= <-]. constructor.
    + cbn [LumeSite.dispatchLoop]. unfold bind at 1.
      destruct (LumeSite.invoke l event st) as [[go|e] st1] eqn:Hi;
        [|discriminate].
      destruct go; [|discriminate].
      intros Hl. econstructor; [exact Hi | now apply IH].
  - induction 1 as [st | l ls st st1 st2 Hi _ IH]; [reflexivity|].
    now rewrite (dispatchLoop_cons _ _ _ _ _ _ Hi).
Qed.

Lemma dispatchLoop_veto (event : Event) (pre post : list Listener)
    (l : Listener) (st st1 st2 : St W) :
  Passes event pre st st1 ->
  LumeSite.invoke l event st1 = (Ret false, st2) ->
  LumeSite.dispatchLoop (pre ++ l :: post) event st = (Ret false, st2).
Proof.
  induction 1 as [st | l' ls st st1 st3 Hi _ IH]; intros Hv.
  - cbn [app]. now rewrite (dispatchLoop_cons _ _ _ _ _ _ Hv).
  - cbn [app]. rewrite (dispatchLoop_cons _ _ _ _ _ _ Hi). now apply IH.
Qed.

(** A run of the loop invokes an initial part of the listeners, in
    order, and all of them when it returns [true]. *)
Lemma dispatchLoop_trace (event : Event) (ls : list Listener)
    (st st' : St W) (o : Outcome bool) :
  LumeSite.dispatchLoop ls event st = (o, st') ->
  st_site st' = st_site st
  /\ exists done rest,
       ls = done ++ rest
       /\ st_trace st' = st_trace st ++ map (invocation event) done
       /\ (o = Ret true -> rest = []).
Proof.
  revert st. induction ls as [|l ls IH]; intros st.
  - intros [= <- <-]. split; [reflexivity|]. exists [], [].
    cbn [map app]. rewrite app_nil_r. auto.
  - cbn [LumeSite.dispatchLoop]. unfold bind at 1.
    destruct (LumeSite.invoke l event st) as [[go|e] st1] eqn:Hi.
    + apply invoke_step in Hi as [Hs Ht]. destruct go.
      * intros Hl. apply IH in Hl as (Hs' & done & rest & -> & Ht' & Hr).
        split; [congruence|]. exists (l :: done), rest.
        split; [reflexivity|]. split; [|exact Hr].
        rewrite Ht', Ht, <- app_assoc. reflexivity.
      * intros [= <- <-]. split; [exact Hs|]. exists [l], ls.
        split; [reflexivity|]. split; [exact Ht | discriminate].
    + apply invoke_step in Hi as [Hs Ht].
      intros [= <- <-]. split; [exact Hs|]. exists [l], ls.
      split; [reflexivity|]. split; [exact Ht | discriminate].
Qed.

Lemma dispatchEvent_unfold (event : Event) (st : St W) :
  LumeSite.dispatchEvent event st
  = match listeners (st_site st) !! type event with
    | None => (Ret true, logged st (st_world st) (Dispatch event))
    | Some ls =>
        LumeSite.dispatchLoop ls event (logged st (st_world st) (Dispatch event))
    end.
Proof.
  unfold LumeSite.dispatchEvent, bind, note, getSite. cbn [st_site logged].
  destruct (listeners (st_site st) !! type event); reflexivity.
Qed.

Lemma dispatchEvent_trace (event : Event) (ls : list Listener)
    (st st' : St W) (o : Outcome bool) :
  listeners (st_site st) !! type event = Some ls ->
  LumeSite.dispatchEvent event st = (o, st') ->
  st_site st' = st_site st
  /\ exists done rest,
       ls = done ++ rest
       /\ st_trace st'
          = st_trace st ++ Dispatch event :: map (invocation event) done
       /\ (o = Ret true -> rest = []).
Proof.
  intros Hl. rewrite dispatchEvent_unfold, Hl.
  intros Hd. apply dispatchLoop_trace in Hd as (Hs & done & rest & E & Ht & Hr).
  split; [exact Hs|].
  exists done, rest. split; [exact E|]. split; [|exact Hr].
  rewrite Ht. cbn [logged st_trace]. now rewrite <- app_assoc.
Qed.

(** C1. Dispatch runs the listeners of the event's type one after the
    other in registration order; at the first listener that signals
    failure it returns [false] and no listener registered after it is
    invoked; without listeners for the type it returns [true].  The
    listener list of a type is the order in which distinct listeners were
    registered. *)
Theorem dispatchEvent_sequential (event : Event) (st : St W) :
  let st0 := logged st (st_world st) (Dispatch event) in
  (listeners (st_site st) !! type event = None ->
     LumeSite.dispatchEvent event st = (Ret true, st0))
  /\ (forall pre l post st1 st2,
        listeners (st_site st) !! type event = Some (pre ++ l :: post) ->
        Passes event pre st0 st1 ->
        LumeSite.invoke l event st1 = (Ret false, st2) ->
        LumeSite.dispatchEvent event st = (Ret false, st2)
        /\ st_trace st2
           = st_trace st ++ Dispatch event :: map (invocation event) (pre ++ [l]))
  /\ (forall ls o st',
        listeners (st_site st) !! type event = Some ls ->
        LumeSite.dispatchEvent event st = (o, st') ->
        exists done rest,
          ls = done ++ rest
          /\ st_trace st'
             = st_trace st ++ Dispatch event :: map (invocation event) done
          /\ (o = Ret true -> rest = []))
  /\ (forall ls s,
        ls <> [] -> NoDup ls -> listeners s !! type event = None ->
        listeners (registerAll (type event) ls s) !! type event = Some ls).
Proof.
  intros st0. split; [|split; [|split]].
  - intros Hn. now rewrite dispatchEvent_unfold, Hn.
  - intros pre l post st1 st2 Hl Hp Hv.
    rewrite dispatchEvent_unfold, Hl. split.
    + now apply (dispatchLoop_veto event pre post l st0 st1 st2).
    + apply passes_trace in Hp as [_ Hp].
      apply invoke_step in Hv as [_ Hv].
      rewrite Hv, Hp. subst st0. cbn [logged st_trace].
      rewrite map_app, <- !app_assoc. reflexivity.
  - intros ls o st' Hl Hd.
    now destruct (dispatchEvent_trace event ls st st' o Hl Hd) as [_ Hd'].
  - intros ls s Hne Hnd Hn.
    rewrite registerAll_lookup; [now rewrite Hn | exact Hne | now rewrite Hn].
Qed.

(** C7. A name listener is run through the command runner and the run's
    boolean result is the listener's outcome; a callable listener's
    returned value is its outcome, where only a strict [false] is a
    failure (so [undefined] is a success); the loop goes on exactly
    after a success. *)
Theorem listener_outcome (event : Event) (st : St W) :
  (forall name b w,
     scripts_run emptyOptions name (st_world st) = (Ret b, w) ->
     LumeSite.dispatchLoop [Named name] event st
     = (Ret b, logged st w (RunScript name)))
  /\ (forall ref v w,
        call ref event (st_world st) = (Ret v, w) ->
        LumeSite.dispatchLoop [Callable ref] event st
        = (Ret match v with
               | JsUndefined => true
               | JsBoolean b => b
               | JsOther _ => true
               end,
           logged st w (CallFn ref event)))
  /\ (forall l rest go st1,
        LumeSite.invoke l event st = (Ret go, st1) ->
        LumeSite.dispatchLoop (l :: rest) event st
        = if go then LumeSite.dispatchLoop rest event st1
          else (Ret false, st1)).
Proof.
  split; [|split].
  - intros name b w Hr.
    rewrite (dispatchLoop_cons _ _ _ _ _ _ (invoke_named _ event _ _ _ Hr)).
    now destruct b.
  - intros ref v w Hr.
    rewrite (dispatchLoop_cons _ _ _ _ _ _ (invoke_callable _ _ _ _ _ Hr)).
    now destruct v as [|[]|].
  - intros l rest go st1. apply dispatchLoop_cons.
Qed.

Lemma invocation_inj (event : Event) (l l' : Listener) :
  invocation event l = invocation event l' -> l = l'.
Proof. destruct l, l'; simpl; congruence. Qed.

Lemma invocation_not_dispatch (event e' : Event) (l : Listener) :
  invocation event l <> Dispatch e'.
Proof. now destruct l. Qed.

Lemma NoDup_atMostOnce {A} (x : A) (l : list A) :
  NoDup l -> atMostOnce x l.
Proof. intros Hnd i j Hi Hj. exact (NoDup_lookup l i j x Hnd Hi Hj). Qed.

(** C8. Registering the same listener twice for one event type leaves
    the site as one registration does; a later dispatch for that type
    invokes the listener at most once, and exactly once when the
    dispatch returns [true]. *)
Theorem addEventListener_idempotent (t : EventType) (l : Listener) (s : Site) :
  let once := LumeSite.addEventListener t l s in
  let twice := LumeSite.addEventListener t l once in
  twice = once
  /\ (distinctListeners s ->
      forall event st b st',
        type event = t -> st_site st = twice ->
        LumeSite.dispatchEvent event st = (Ret b, st') ->
        exists steps,
          st_trace st' = st_trace st ++ steps
          /\ atMostOnce (invocation event l) steps
          /\ (b = true -> exactlyOnce (invocation event l) steps)).
Proof.
  intros once twice. split; [apply addEventListener_twice|].
  intros Hd event st b st' Ht Hs Hrun.
  assert (Hlk : listeners (st_site st) !! type event
                = Some (LumeSite.setAdd l (default [] (listeners s !! t)))).
  { rewrite Hs, Ht. subst twice once. rewrite addEventListener_twice.
    apply addEventListener_lookup. }
  set (ls := LumeSite.setAdd l (default [] (listeners s !! t))) in *.
  assert (Hnd : NoDup ls).
  { apply (addEventListener_distinct t l s Hd t). apply addEventListener_lookup. }
  destruct (dispatchEvent_trace event ls st st' (Ret b) Hlk Hrun)
    as (_ & done & rest & E & Htr & Hr).
  exists (Dispatch event :: map (invocation event) done).
  split; [exact Htr|].
  assert (Hnd' : NoDup (Dispatch event :: map (invocation event) done)).
  { apply NoDup_cons. split.
    - intros (l' & Hl' & _)%list_elem_of_fmap.
      now apply (invocation_not_dispatch event event l').
    - apply NoDup_fmap_2; [intros a b'; apply invocation_inj|].
      rewrite E in Hnd. now apply NoDup_app in Hnd as [Hnd _]. }
  split; [now apply NoDup_atMostOnce|].
  intros ->. rewrite (Hr eq_refl), app_nil_r in E. subst done.
  split; [|now apply NoDup_atMostOnce].
  apply list_elem_of_further, list_elem_of_fmap_2, setAdd_member.
Qed.

End DispatchFacts.

(** ** The update classifier *)

Section ClassifierFacts.
Context {W : Type}.
Context `{Externals, Scripts W, Callables W, Emitter W, Loader W,
          Renderer W, Metrics W, Concurrency W}.

Lemma classify_same (s0 s : Site) (file : string) :
  sameRegistries s0 s ->
  LumeSite.classify s file = LumeSite.classify s0 file.
Proof.
  intros (_ & Hst & Hig & _).
  unfold LumeSite.classify, SiteSource.isStatic, SiteSource.isIgnored.
  now rewrite Hst, Hig.
Qed.

(** The loop body of [update] does what the class of the file says. *)
Lemma updateFile_act (file : string) (st : St W) :
  LumeSite.updateFile file st
  = LumeSite.act (LumeSite.classify (st_site st) file) file st.
Proof.
  unfold LumeSite.updateFile, LumeSite.classify, LumeSite.hidden, bind, getSite.
  destruct (SiteSource.isStatic (source (st_site st)) file) as [[from to]|];
    [reflexivity|].
  destruct (SiteSource.isIgnored (source (st_site st)) file); [reflexivity|].
  destruct (LumeSite.dataPattern (normalizePath file)); [reflexivity|].
  destruct (Js.includes (normalizePath file) "/_" 
            || Js.includes (normalizePath file) "/."); reflexivity.
Qed.

(** C2. Every changed path gets one class, and the class is decided in
    the order Static, Ignored, DataReload, HiddenSkip, GenericReload: an
    earlier test that applies wins whatever the later ones say; the loop
    body of [update] acts on that class. *)
Theorem classify_total_ordered (s : Site) (file : string) :
  (exists c, LumeSite.classify s file = c
             /\ forall c', LumeSite.classify s file = c' -> c' = c)
  /\ (forall from to,
        SiteSource.isStatic (source s) file = Some (from, to) ->
        LumeSite.classify s file = LumeSite.Static from to)
  /\ (SiteSource.isStatic (source s) file = None ->
      SiteSource.isIgnored (source s) file = true ->
      LumeSite.classify s file = LumeSite.Ignored)
  /\ (SiteSource.isStatic (source s) file = None ->
      SiteSource.isIgnored (source s) file = false ->
      LumeSite.dataPattern (normalizePath file) = true ->
      LumeSite.classify s file = LumeSite.DataReload)
  /\ (SiteSource.isStatic (source s) file = None ->
      SiteSource.isIgnored (source s) file = false ->
      LumeSite.dataPattern (normalizePath file) = false ->
      LumeSite.hidden (normalizePath file) = true ->
      LumeSite.classify s file = LumeSite.HiddenSkip)
  /\ (SiteSource.isStatic (source s) file = None ->
      SiteSource.isIgnored (source s) file = false ->
      LumeSite.dataPattern (normalizePath file) = false ->
      LumeSite.hidden (normalizePath file) = false ->
      LumeSite.classify s file = LumeSite.GenericReload)
  /\ (forall st : St W,
        st_site st = s ->
        LumeSite.updateFile file st
        = LumeSite.act (LumeSite.classify s file) file st).
Proof.
  unfold LumeSite.classify.
  repeat split.
  - eexists; split; [reflexivity | now intros c' <-].
  - now intros from to ->.
  - now intros -> ->.
  - now intros -> -> ->.
  - now intros -> -> -> ->.
  - now intros -> -> -> ->.
  - intros st <-. apply updateFile_act.
Qed.

(** C6 (amended). A changed path that is neither static nor ignored is
    classified DataReload exactly when its normalized form contains
    "/_data" followed by "/" (a directory named _data) or by "." and one
    or more word characters that end the path (a file _data.<ext> whose
    extension is made of letters, digits and "_"); the loop body then
    reloads that one file through the loader; "/_data/colors.yml" is
    such a path. *)
Theorem data_reload_pattern (s : Site) (file : string) :
  SiteSource.isStatic (source s) file = None ->
  SiteSource.isIgnored (source s) file = false ->
  (LumeSite.classify s file = LumeSite.DataReload
   <-> exists pre post,
         normalizePath file = pre +:+ "/_data" +:+ post /\ dataSuffix post)
  /\ (LumeSite.classify s file = LumeSite.DataReload ->
      forall st : St W,
        st_site st = s ->
        LumeSite.updateFile file st = LumeSite.loadFile file st)
  /\ (normalizePath file = "/_data/colors.yml" ->
      LumeSite.classify s file = LumeSite.DataReload).
Proof.
  intros Hst Hig.
  assert (Hc : LumeSite.classify s file = LumeSite.DataReload
               <-> LumeSite.dataPattern (normalizePath file) = true).
  { unfold LumeSite.classify. rewrite Hst, Hig.
    destruct (LumeSite.dataPattern (normalizePath file)); [easy|].
    destruct (LumeSite.hidden (normalizePath file)); easy. }
  split; [|split].
  - rewrite Hc. apply dataPattern_spec.
  - intros Hd st <-. now rewrite updateFile_act, Hd.
  - intros E. apply Hc. now rewrite E.
Qed.

End ClassifierFacts.

(** ** The pipelines *)

Section PipelineFacts.
Context {W : Type}.
Context `{Externals, Scripts W, Callables W, Emitter W, Loader W,
          Renderer W, Metrics W, Concurrency W}.
Hypothesis quiet_world : NoThrow.

Lemma sameRegistries_refl (s : Site) : sameRegistries s s.
Proof. now repeat split. Qed.

Lemma yields_ret {A} (s0 : Site) (a : A) : yields s0 (ret (W:=W) a) [].
Proof.
  intros st Hs. exists a, st. split; [reflexivity|]. split; [exact Hs|].
  now rewrite app_nil_r.
Qed.

Lemma yields_bind {A B} (s0 : Site) (m : M W A) (k : A -> M W B)
    (p q : list Phase) :
  yields s0 m p -> (forall a, yields s0 (k a) q) ->
  yields s0 (bind m k) (p ++ q).
Proof.
  intros Hm Hk st Hs.
  destruct (Hm st Hs) as (a & st1 & Em & Hs1 & Ht1).
  destruct (Hk a st1 Hs1) as (b & st2 & Ek & Hs2 & Ht2).
  exists b, st2. split; [|split; [exact Hs2|]].
  - unfold bind. now rewrite Em.
  - now rewrite Ht2, Ht1, app_assoc.
Qed.

Lemma yields_getSite {A} (s0 : Site) (k : Site -> M W A) (p : list Phase) :
  (forall s, sameRegistries s0 s -> yields s0 (k s) p) ->
  yields s0 (bind getSite k) p.
Proof. intros Hk st Hs. exact (Hk (st_site st) Hs st Hs). Qed.

Lemma phases_snoc (tr : list Step) (s : Step) :
  phases (tr ++ [s]) = phases tr ++ from_option (fun p => [p]) [] (phaseOf s).
Proof.
  unfold phases. rewrite omap_app. simpl.
  destruct (phaseOf s); reflexivity.
Qed.

Lemma yields_perform {A} (s0 : Site) (s : Step) (f : W -> Outcome A * W) :
  (forall w, exists a w', f w = (Ret a, w')) ->
  yields s0 (perform s f) (from_option (fun p => [p]) [] (phaseOf s)).
Proof.
  intros Hf st Hs. destruct (Hf (st_world st)) as (a & w & E).
  exists a, (logged st w s). split; [|split; [exact Hs|]].
  - unfold perform. now rewrite E.
  - apply phases_snoc.
Qed.

Lemma yields_setPages (s0 : Site) (ps : list Page * list Page) :
  yields s0 (setPages (W:=W) ps) [].
Proof.
  intros st Hs. eexists tt, _. split; [reflexivity|]. split.
  - destruct Hs as (? & ? & ? & ?). now repeat split.
  - cbn [st_trace]. now rewrite app_nil_r.
Qed.

Lemma yields_invoke (s0 : Site) (l : Listener) (event : Event) :
  yields s0 (LumeSite.invoke l event) [].
Proof.
  destruct l as [name|ref]; unfold LumeSite.invoke, LumeSite.run.
  - change (@nil Phase) with (from_option (fun p => [p]) [] (phaseOf (RunScript name)) ++ []).
    apply yields_bind; [|intros b; apply yields_ret].
    apply yields_perform. intros w.
    destruct (run_returns quiet_world name w) as (b & w' & E). eauto.
  - change (@nil Phase)
      with (from_option (fun p => [p]) [] (phaseOf (CallFn ref event)) ++ []).
    apply yields_bind; [|intros b; apply yields_ret].
    apply yields_perform. intros w.
    destruct (call_returns quiet_world ref event w) as (v & w' & E). eauto.
Qed.

Lemma yields_dispatchLoop (s0 : Site) (ls : list Listener) (event : Event) :
  yields s0 (LumeSite.dispatchLoop ls event) [].
Proof.
  induction ls as [|l ls IH]; cbn [LumeSite.dispatchLoop].
  - apply yields_ret.
  - change (@nil Phase) with (@nil Phase ++ []).
    apply yields_bind; [apply yields_invoke|].
    intros [|]; [exact IH | apply yields_ret].
Qed.

(** Whatever the listeners answer, a dispatch returns and is one phase. *)
Lemma yields_dispatchEvent (s0 : Site) (event : Event) :
  yields s0 (LumeSite.dispatchEvent event) [PhDispatch (type event)].
Proof.
  intros st Hs. rewrite dispatchEvent_unfold.
  set (st0 := logged st (st_world st) (Dispatch event)).
  assert (Ht0 : phases (st_trace st0)
                = phases (st_trace st) ++ [PhDispatch (type event)])
    by apply phases_snoc.
  destruct (listeners (st_site st) !! type event) as [ls|].
  - destruct (yields_dispatchLoop s0 ls event st0 Hs) as (b & st' & E & Hs' & Ht).
    exists b, st'. split; [exact E|]. split; [exact Hs'|].
    now rewrite Ht, app_nil_r.
  - exists true, st0. now split.
Qed.

Lemma yields_start (s0 : Site) (label : string) :
  yields s0 (LumeSite.start label) [].
Proof.
  apply (yields_perform s0 (MetricStart label)). intros w.
  destruct (start_returns quiet_world label w) as (w' & E). eauto.
Qed.

Lemma yields_stop (s0 : Site) (label : string) :
  yields s0 (LumeSite.stop label) [].
Proof.
  apply (yields_perform s0 (MetricStop label)). intros w.
  destruct (stop_returns quiet_world label w) as (w' & E). eauto.
Qed.

Lemma yields_clear (s0 : Site) : yields s0 LumeSite.clear [PhClear].
Proof.
  apply (yields_perform s0 Clear). intros w.
  destruct (clear_returns quiet_world w) as (w' & E). eauto.
Qed.

Lemma yields_copyFile (s0 : Site) (from to : string) :
  yields s0 (LumeSite.copyFile from to) [PhCopy from to].
Proof.
  apply (yields_perform s0 (CopyFile from to)). intros w.
  destruct (copyFile_returns quiet_world from to w) as (w' & E). eauto.
Qed.

Lemma yields_copyAll (s0 : Site) (entries : list (string * string)) :
  yields s0 (LumeSite.copyAll entries)
    (map (fun e => PhCopy (fst e) (snd e)) entries).
Proof.
  induction entries as [|[from to] entries IH]; cbn [LumeSite.copyAll map].
  - apply yields_ret.
  - apply (yields_bind s0 _ _ [PhCopy from to]); [apply yields_copyFile|].
    intros _. exact IH.
Qed.

Lemma yields_loadDirectory (s0 : Site) :
  yields s0 LumeSite.loadDirectory [PhLoadAll].
Proof.
  unfold LumeSite.loadDirectory. apply yields_getSite. intros s _.
  apply (yields_bind s0 _ _ [PhLoadAll] []); [|intros ps; apply yields_setPages].
  apply (yields_perform s0 LoadDirectory). intros w.
  destruct (loadDirectory_returns quiet_world s w) as (ps & w' & E). eauto.
Qed.

Lemma yields_loadFile (s0 : Site) (file : string) :
  yields s0 (LumeSite.loadFile file) [PhLoadFile file].
Proof.
  unfold LumeSite.loadFile. apply yields_getSite. intros s _.
  apply (yields_bind s0 _ _ [PhLoadFile file] []);
    [|intros ps; apply yields_setPages].
  apply (yields_perform s0 (LoadFile file)). intros w.
  destruct (loadFile_returns quiet_world file s w) as (ps & w' & E). eauto.
Qed.

Lemma yields_buildPages (s0 : Site) :
  yields s0 LumeSite.buildPages [PhRenderAll].
Proof.
  unfold LumeSite.buildPages. apply yields_getSite. intros s _.
  apply (yields_bind s0 _ _ [PhRenderAll] []);
    [|intros ps; apply yields_setPages].
  apply (yields_perform s0 (BuildPages _)). intros w.
  destruct (buildPages_returns quiet_world (source_pages (source s)) s w)
    as (ps & w' & E). eauto.
Qed.

Lemma yields_savePages (s0 : Site) :
  yields s0 LumeSite.savePages [PhSaveAll].
Proof.
  unfold LumeSite.savePages. apply yields_getSite. intros s _.
  apply (yields_perform s0 (SavePages _)). intros w.
  destruct (save_returns quiet_world (pages s) w) as (w' & E). eauto.
Qed.

Lemma yields_flushMetrics (s0 : Site) :
  yields s0 LumeSite.flushMetrics (flushPhases (options s0)).
Proof.
  unfold LumeSite.flushMetrics, flushPhases.
  apply yields_getSite. intros s (<- & _).
  destruct (metrics (options s0)) as [[|]|file].
  - apply (yields_perform s0 MetricsPrint). intros w.
    destruct (metrics_print_returns quiet_world w) as (w' & E). eauto.
  - apply yields_ret.
  - apply (yields_perform s0 (MetricsSave _)). intros w.
    destruct (metrics_save_returns quiet_world
                (Path.join [cwd (options s0); file]) w) as (w' & E). eauto.
Qed.

Lemma yields_eq {A} (s0 : Site) (m : M W A) (p q : list Phase) :
  yields s0 m p -> p = q -> yields s0 m q.
Proof. now intros Hm <-. Qed.

Ltac phase :=
  first [ apply yields_start | apply yields_stop | apply yields_clear
        | apply yields_dispatchEvent | apply yields_loadDirectory
        | apply yields_buildPages | apply yields_savePages
        | apply yields_flushMetrics | apply yields_ret ].

Ltac sequence := repeat (eapply yields_bind; [phase | intros ?]).

Lemma yields_build (s0 : Site) : yields s0 LumeSite.build (buildPhases s0).
Proof.
  unfold LumeSite.build, buildPhases.
  eapply yields_eq.
  - sequence. apply yields_getSite. intros s (_ & <- & _).
    eapply yields_bind; [apply yields_copyAll | intros ?].
    sequence. phase.
  - reflexivity.
Qed.

Lemma yields_act (s0 : Site) (file : string) :
  yields s0 (LumeSite.act (LumeSite.classify s0 file) file)
    (filePhases s0 file).
Proof.
  unfold filePhases.
  destruct (LumeSite.classify s0 file); cbn [LumeSite.act];
    first [apply yields_ret | apply yields_copyFile | apply yields_loadFile].
Qed.

Lemma yields_updateFile (s0 : Site) (file : string) :
  yields s0 (LumeSite.updateFile file) (filePhases s0 file).
Proof.
  intros st Hs. rewrite updateFile_act, (classify_same s0 _ file Hs).
  now apply yields_act.
Qed.

Lemma yields_updateFiles (s0 : Site) (fs : list string) :
  yields s0 (LumeSite.updateFiles fs) (flat_map (filePhases s0) fs).
Proof.
  induction fs as [|file fs IH]; cbn [LumeSite.updateFiles flat_map].
  - apply yields_ret.
  - apply yields_bind; [apply yields_updateFile | intros _; exact IH].
Qed.

Lemma yields_update (s0 : Site) (fs : list string) :
  yields s0 (LumeSite.update fs) (updatePhases s0 fs).
Proof.
  unfold LumeSite.update, updatePhases.
  eapply yields_eq.
  - eapply yields_bind; [phase | intros ?].
    eapply yields_bind; [apply yields_updateFiles | intros ?].
    sequence. phase.
  - reflexivity.
Qed.

End PipelineFacts.

(** ** The pipelines execute what they record *)

Section Executed.
Context {W : Type}.
Context `{Externals, Scripts W, Callables W, Emitter W, Loader W,
          Renderer W, Metrics W, Concurrency W}.

Lemma replay_app (a b : list Step) (s : Site) (w : W) :
  replay (a ++ b) s w
  = match replay a s w with
    | (Ret _, s', w') => replay b s' w'
    | (Throw e, s', w') => (Throw e, s', w')
    end.
Proof.
  revert s w. induction a as [|step a IH]; intros s w; [reflexivity|].
  cbn [app replay]. destruct (doStep step s w) as [[[[]|e] s1] w1];
    [apply IH | reflexivity].
Qed.

Lemma faithful_ret {A} (a : A) : faithful (ret (W:=W) a).
Proof.
  intros st o st' [= <- <-]. exists []. split; [|reflexivity].
  now rewrite app_nil_r.
Qed.

Lemma faithful_bind {A B} (m : M W A) (k : A -> M W B) :
  faithful m -> (forall a, faithful (k a)) -> faithful (bind m k).
Proof.
  intros Hm Hk st o st'. unfold bind.
  destruct (m st) as [[a|e] st1] eqn:Em.
  - intros Ek. destruct (Hm _ _ _ Em) as (s1 & Ht1 & Hr1).
    destruct (Hk a _ _ _ Ek) as (s2 & Ht2 & Hr2).
    exists (s1 ++ s2). split.
    + now rewrite Ht2, Ht1, app_assoc.
    + rewrite replay_app, Hr1. exact Hr2.
  - intros [= <- <-]. destruct (Hm _ _ _ Em) as (s1 & Ht1 & Hr1).
    exists s1. split; [exact Ht1 | exact Hr1].
Qed.

Lemma faithful_getSite {A} (k : Site -> M W A) :
  (forall s, faithful (k s)) -> faithful (bind getSite k).
Proof. intros Hk st o st'. exact (Hk (st_site st) st o st'). Qed.

(** A collaborator call that leaves the site alone. *)
Lemma faithful_perform {A} (step : Step) (f : W -> Outcome A * W) :
  (forall s w, doStep step s w = called s (f w)) ->
  faithful (perform step f).
Proof.
  intros Hd st o st'. unfold perform.
  destruct (f (st_world st)) as [o1 w1] eqn:Ef. intros [= <- <-].
  exists [step]. split; [reflexivity|].
  cbn [replay]. rewrite Hd, Ef. unfold called. cbn [fst snd logged st_site st_world].
  now destruct o1.
Qed.

(** A collaborator call that may replace the page collections. *)
Lemma faithful_paged (step : Step)
    (f : Site -> W -> Outcome (list Page * list Page) * W) :
  (forall s w, doStep step s w = paged s (f s w)) ->
  faithful (bind getSite (fun s => bind (perform step (f s)) setPages)).
Proof.
  intros Hd st o st'. unfold bind, getSite, perform, setPages.
  destruct (f (st_site st) (st_world st)) as [[ps|e] w1] eqn:Ef;
    cbn [logged st_site st_world st_trace]; intros [= <- <-];
    exists [step]; (split; [reflexivity|]);
    cbn [replay]; rewrite Hd, Ef; reflexivity.
Qed.

Lemma faithful_invoke (l : Listener) (event : Event) :
  faithful (LumeSite.invoke l event).
Proof.
  destruct l as [name|ref]; unfold LumeSite.invoke, LumeSite.run;
    (apply faithful_bind; [|intros ?; apply faithful_ret]);
    apply faithful_perform; reflexivity.
Qed.

Lemma faithful_dispatchLoop (ls : list Listener) (event : Event) :
  faithful (LumeSite.dispatchLoop ls event).
Proof.
  induction ls as [|l ls IH]; cbn [LumeSite.dispatchLoop].
  - apply faithful_ret.
  - apply faithful_bind; [apply faithful_invoke|].
    intros [|]; [exact IH | apply faithful_ret].
Qed.

Lemma faithful_dispatchEvent (event : Event) :
  faithful (LumeSite.dispatchEvent event).
Proof.
  unfold LumeSite.dispatchEvent. apply faithful_bind.
  - intros st o st' [= <- <-]. exists [Dispatch event].
    split; reflexivity.
  - intros _. apply faithful_getSite. intros s.
    destruct (listeners s !! type event);
      [apply faithful_dispatchLoop | apply faithful_ret].
Qed.

Lemma faithful_copyFile (from to : string) :
  faithful (LumeSite.copyFile from to).
Proof. apply faithful_perform. reflexivity. Qed.

Lemma faithful_copyAll (entries : list (string * string)) :
  faithful (LumeSite.copyAll entries).
Proof.
  induction entries as [|[from to] entries IH]; cbn [LumeSite.copyAll].
  - apply faithful_ret.
  - apply faithful_bind; [apply faithful_copyFile | intros _; exact IH].
Qed.

Lemma faithful_loadDirectory : faithful LumeSite.loadDirectory.
Proof. apply (faithful_paged LoadDirectory). reflexivity. Qed.

Lemma faithful_loadFile (file : string) : faithful (LumeSite.loadFile file).
Proof. apply (faithful_paged (LoadFile file)). reflexivity. Qed.

Lemma faithful_buildPages : faithful LumeSite.buildPages.
Proof.
  intros st o st'.
  apply (faithful_paged (BuildPages (source_pages (source (st_site st))))
           (fun s => renderer_buildPages (source_pages (source s)) s)).
  reflexivity.
Qed.

Lemma faithful_savePages : faithful LumeSite.savePages.
Proof.
  intros st o st'. unfold LumeSite.savePages, bind, getSite, perform.
  destruct (concurrent (pages (st_site st)) emitter_savePage (st_world st))
    as [o1 w1] eqn:Ef.
  intros [= <- <-]. exists [SavePages (pages (st_site st))].
  split; [reflexivity|]. cbn [replay doStep]. rewrite Ef.
  unfold called. cbn [fst snd logged st_site st_world]. now destruct o1.
Qed.

Lemma faithful_start (label : string) : faithful (LumeSite.start label).
Proof. apply faithful_perform. reflexivity. Qed.

Lemma faithful_stop (label : string) : faithful (LumeSite.stop label).
Proof. apply faithful_perform. reflexivity. Qed.

Lemma faithful_clear : faithful LumeSite.clear.
Proof. apply faithful_perform. reflexivity. Qed.

Lemma faithful_flushMetrics : faithful LumeSite.flushMetrics.
Proof.
  unfold LumeSite.flushMetrics. apply faithful_getSite. intros s.
  destruct (metrics (options s)) as [[|]|file];
    [apply faithful_perform; reflexivity | apply faithful_ret
    | apply faithful_perform; reflexivity].
Qed.

Ltac realPhase :=
  first [ apply faithful_start | apply faithful_stop | apply faithful_clear
        | apply faithful_dispatchEvent | apply faithful_loadDirectory
        | apply faithful_buildPages | apply faithful_savePages
        | apply faithful_flushMetrics | apply faithful_copyAll
        | apply faithful_ret ].

Lemma faithful_build : faithful LumeSite.build.
Proof.
  unfold LumeSite.build.
  repeat lazymatch goal with
         | |- faithful (bind getSite _) => apply faithful_getSite; intros ?
         | |- faithful (bind _ _) => apply faithful_bind; [realPhase | intros ?]
         end.
  realPhase.
Qed.

Lemma faithful_updateFile (file : string) : faithful (LumeSite.updateFile file).
Proof.
  intros st o st'. rewrite updateFile_act.
  destruct (LumeSite.classify (st_site st) file); cbn [LumeSite.act];
    first [ apply faithful_copyFile | apply faithful_loadFile
          | apply (faithful_ret tt) ].
Qed.

Lemma faithful_updateFiles (fs : list string) :
  faithful (LumeSite.updateFiles fs).
Proof.
  induction fs as [|file fs IH]; cbn [LumeSite.updateFiles].
  - apply faithful_ret.
  - apply faithful_bind; [apply faithful_updateFile | intros _; exact IH].
Qed.

Lemma faithful_update (fs : list string) : faithful (LumeSite.update fs).
Proof.
  unfold LumeSite.update.
  apply faithful_bind; [realPhase | intros ?].
  apply faithful_bind; [apply faithful_updateFiles | intros ?].
  repeat lazymatch goal with
         | |- faithful (bind _ _) => apply faithful_bind; [realPhase | intros ?]
         end.
  realPhase.
Qed.

End Executed.

(** ** The pipelines, whatever the collaborators do *)

Section EveryRun.
Context {W : Type}.
Context `{Externals, Scripts W, Callables W, Emitter W, Loader W,
          Renderer W, Metrics W, Concurrency W}.

Lemma within_ret {A} (s0 : Site) (a : A) : within s0 (ret (W:=W) a) [].
Proof.
  intros st o st' Hs [= <- <-]. split; [exact Hs|].
  exists [], []. split; [reflexivity|].
  split; [now rewrite app_nil_r | reflexivity].
Qed.

Lemma within_bind {A B} (s0 : Site) (m : M W A) (k : A -> M W B)
    (p q : list Phase) :
  within s0 m p -> (forall a, within s0 (k a) q) ->
  within s0 (bind m k) (p ++ q).
Proof.
  intros Hm Hk st o st' Hs. unfold bind.
  destruct (m st) as [[a|e] st1] eqn:Em.
  - destruct (Hm st _ _ Hs Em) as (Hs1 & done1 & rest1 & -> & Ht1 & Hr1).
    rewrite (Hr1 (ex_intro _ a eq_refl)), app_nil_r in *.
    intros Ek.
    destruct (Hk a st1 _ _ Hs1 Ek) as (Hs2 & done2 & rest2 & -> & Ht2 & Hr2).
    split; [exact Hs2|]. exists (done1 ++ done2), rest2.
    split; [now rewrite app_assoc|]. split; [|exact Hr2].
    now rewrite Ht2, Ht1, app_assoc.
  - intros [= <- <-].
    destruct (Hm st _ _ Hs Em) as (Hs1 & done1 & rest1 & -> & Ht1 & _).
    split; [exact Hs1|]. exists done1, (rest1 ++ q).
    split; [now rewrite app_assoc|]. split; [exact Ht1|].
    intros [a [=]].
Qed.

Lemma within_getSite {A} (s0 : Site) (k : Site -> M W A) (p : list Phase) :
  (forall s, sameRegistries s0 s -> within s0 (k s) p) ->
  within s0 (bind getSite k) p.
Proof. intros Hk st o st' Hs. exact (Hk (st_site st) Hs st o st' Hs). Qed.

Lemma within_perform {A} (s0 : Site) (s : Step) (f : W -> Outcome A * W) :
  within s0 (perform s f) (from_option (fun p => [p]) [] (phaseOf s)).
Proof.
  intros st o st' Hs. unfold perform.
  destruct (f (st_world st)) as [o' w]. intros [= <- <-].
  split; [exact Hs|].
  exists (from_option (fun p => [p]) [] (phaseOf s)), [].
  rewrite app_nil_r. split; [reflexivity|]. split; [|reflexivity].
  apply phases_snoc.
Qed.

Lemma within_setPages (s0 : Site) (ps : list Page * list Page) :
  within s0 (setPages (W:=W) ps) [].
Proof.
  intros st o st' Hs [= <- <-]. split.
  - destruct Hs as (? & ? & ? & ?). now repeat split.
  - exists [], []. cbn [st_trace]. split; [reflexivity|].
    split; [now rewrite app_nil_r | reflexivity].
Qed.

Lemma within_eq {A} (s0 : Site) (m : M W A) (p q : list Phase) :
  within s0 m p -> p = q -> within s0 m q.
Proof. now intros Hm <-. Qed.

Lemma within_invoke (s0 : Site) (l : Listener) (event : Event) :
  within s0 (LumeSite.invoke l event) [].
Proof.
  destruct l as [name|ref]; unfold LumeSite.invoke, LumeSite.run.
  - apply (within_bind s0 _ _ [] []); [|intros b; apply within_ret].
    apply (within_perform s0 (RunScript name)).
  - apply (within_bind s0 _ _ [] []); [|intros b; apply within_ret].
    apply (within_perform s0 (CallFn ref event)).
Qed.

Lemma within_dispatchLoop (s0 : Site) (ls : list Listener) (event : Event) :
  within s0 (LumeSite.dispatchLoop ls event) [].
Proof.
  induction ls as [|l ls IH]; cbn [LumeSite.dispatchLoop].
  - apply within_ret.
  - apply (within_bind s0 _ _ [] []); [apply within_invoke|].
    intros [|]; [exact IH | apply within_ret].
Qed.

Lemma within_dispatchEvent (s0 : Site) (event : Event) :
  within s0 (LumeSite.dispatchEvent event) [PhDispatch (type event)].
Proof.
  unfold LumeSite.dispatchEvent.
  apply (within_bind s0 _ _ [PhDispatch (type event)] []).
  - intros st o st' Hs [= <- <-]. split; [exact Hs|].
    exists [PhDispatch (type event)], []. split; [reflexivity|].
    split; [apply phases_snoc | reflexivity].
  - intros _. apply within_getSite. intros s _.
    destruct (listeners s !! type event);
      [apply within_dispatchLoop | apply within_ret].
Qed.

Lemma within_copyAll (s0 : Site) (entries : list (string * string)) :
  within s0 (LumeSite.copyAll entries)
    (map (fun e => PhCopy (fst e) (snd e)) entries).
Proof.
  induction entries as [|[from to] entries IH]; cbn [LumeSite.copyAll map].
  - apply within_ret.
  - apply (within_bind s0 _ _ [PhCopy from to]); [|intros _; exact IH].
    apply (within_perform s0 (CopyFile from to)).
Qed.

Lemma within_loadFile (s0 : Site) (file : string) :
  within s0 (LumeSite.loadFile file) [PhLoadFile file].
Proof.
  unfold LumeSite.loadFile. apply within_getSite. intros s _.
  apply (within_bind s0 _ _ [PhLoadFile file] []);
    [|intros ps; apply within_setPages].
  apply (within_perform s0 (LoadFile file)).
Qed.

Lemma within_loadDirectory (s0 : Site) :
  within s0 LumeSite.loadDirectory [PhLoadAll].
Proof.
  unfold LumeSite.loadDirectory. apply within_getSite. intros s _.
  apply (within_bind s0 _ _ [PhLoadAll] []);
    [|intros ps; apply within_setPages].
  apply (within_perform s0 LoadDirectory).
Qed.

Lemma within_buildPages (s0 : Site) :
  within s0 LumeSite.buildPages [PhRenderAll].
Proof.
  unfold LumeSite.buildPages. apply within_getSite. intros s _.
  apply (within_bind s0 _ _ [PhRenderAll] []);
    [|intros ps; apply within_setPages].
  apply (within_perform s0 (BuildPages _)).
Qed.

Lemma within_savePages (s0 : Site) :
  within s0 LumeSite.savePages [PhSaveAll].
Proof.
  unfold LumeSite.savePages. apply within_getSite. intros s _.
  apply (within_perform s0 (SavePages _)).
Qed.

Lemma within_flushMetrics (s0 : Site) :
  within s0 LumeSite.flushMetrics (flushPhases (options s0)).
Proof.
  unfold LumeSite.flushMetrics, flushPhases.
  apply within_getSite. intros s (<- & _).
  destruct (metrics (options s0)) as [[|]|file].
  - apply (within_perform s0 MetricsPrint).
  - apply within_ret.
  - apply (within_perform s0 (MetricsSave _)).
Qed.

Ltac anyPhase :=
  first [ apply (within_perform _ (MetricStart _))
        | apply (within_perform _ (MetricStop _))
        | apply (within_perform _ Clear)
        | apply within_dispatchEvent | apply within_loadDirectory
        | apply within_buildPages | apply within_savePages
        | apply within_flushMetrics | apply within_ret ].

Ltac anySequence := repeat (eapply within_bind; [anyPhase | intros ?]).

Lemma within_build (s0 : Site) : within s0 LumeSite.build (buildPhases s0).
Proof.
  unfold LumeSite.build, buildPhases, LumeSite.start, LumeSite.stop,
    LumeSite.clear.
  eapply within_eq.
  - anySequence. apply within_getSite. intros s (_ & <- & _).
    eapply within_bind; [apply within_copyAll | intros ?].
    anySequence. anyPhase.
  - reflexivity.
Qed.

Lemma within_updateFile (s0 : Site) (file : string) :
  within s0 (LumeSite.updateFile file) (filePhases s0 file).
Proof.
  intros st o st' Hs. rewrite updateFile_act, (classify_same s0 _ file Hs).
  revert st o st' Hs. fold (within s0 (LumeSite.act (LumeSite.classify s0 file) file)
                              (filePhases s0 file)).
  unfold filePhases.
  destruct (LumeSite.classify s0 file); cbn [LumeSite.act];
    first [ apply within_ret | apply within_loadFile
          | apply (within_perform s0 (CopyFile _ _)) ].
Qed.

Lemma within_updateFiles (s0 : Site) (fs : list string) :
  within s0 (LumeSite.updateFiles fs) (flat_map (filePhases s0) fs).
Proof.
  induction fs as [|file fs IH]; cbn [LumeSite.updateFiles flat_map].
  - apply within_ret.
  - apply within_bind; [apply within_updateFile | intros _; exact IH].
Qed.

Lemma within_update (s0 : Site) (fs : list string) :
  within s0 (LumeSite.update fs) (updatePhases s0 fs).
Proof.
  unfold LumeSite.update, updatePhases.
  eapply within_eq.
  - eapply within_bind; [anyPhase | intros ?].
    eapply within_bind; [apply within_updateFiles | intros ?].
    anySequence. anyPhase.
  - reflexivity.
Qed.


End EveryRun.

(** ** More on the event bus *)

Section DispatchMore.
Context {W : Type}.
Context `{Externals, Scripts W, Callables W, Emitter W, Loader W,
          Renderer W, Metrics W, Concurrency W}.

Lemma dispatchLoop_throw (event : Event) (pre post : list Listener)
    (l : Listener) (st st1 st2 : St W) (e : Exn) :
  Passes event pre st st1 ->
  LumeSite.invoke l event st1 = (Throw e, st2) ->
  LumeSite.dispatchLoop (pre ++ l :: post) event st = (Throw e, st2).
Proof.
  induction 1 as [st | l' ls st st1 st3 Hi _ IH]; intros Hv.
  - cbn [app LumeSite.dispatchLoop]. now rewrite (bind_throw _ _ _ _ _ Hv).
  - cbn [app]. rewrite (dispatchLoop_cons _ _ _ _ _ _ Hi). now apply IH.
Qed.

(** X1. A listener that throws ends the dispatch with its exception: the
    listeners before it were invoked, it was invoked, and none after it. *)
Theorem dispatchEvent_throws (event : Event) (st st1 st2 : St W)
    (pre post : list Listener) (l : Listener) (e : Exn) :
  listeners (st_site st) !! type event = Some (pre ++ l :: post) ->
  Passes event pre (logged st (st_world st) (Dispatch event)) st1 ->
  LumeSite.invoke l event st1 = (Throw e, st2) ->
  LumeSite.dispatchEvent event st = (Throw e, st2)
  /\ added st st2 (Dispatch event :: map (invocation event) (pre ++ [l])).
Proof.
  intros Hl Hp Hv. rewrite dispatchEvent_unfold, Hl. split.
  - now apply (dispatchLoop_throw event pre post l _ st1 st2).
  - apply passes_trace in Hp as [_ Hp]. apply invoke_step in Hv as [_ Hv].
    unfold added. rewrite Hv, Hp. cbn [logged st_trace].
    rewrite map_app, <- !app_assoc. reflexivity.
Qed.

Lemma invoke_onSite (s : Site) (l : Listener) (event : Event) (st : St W) :
  LumeSite.invoke l event (onSite s st)
  = (fst (LumeSite.invoke l event st), onSite s (snd (LumeSite.invoke l event st))).
Proof.
  destruct l as [name|ref];
    unfold LumeSite.invoke, LumeSite.run, bind, perform, ret, onSite;
    cbn [st_world st_trace st_site].
  - destruct (scripts_run emptyOptions name (st_world st)) as [[b|e] w];
      reflexivity.
  - destruct (call ref event (st_world st)) as [[v|e] w]; reflexivity.
Qed.

Lemma dispatchLoop_onSite (s : Site) (ls : list Listener) (event : Event)
    (st : St W) :
  LumeSite.dispatchLoop ls event (onSite s st)
  = (fst (LumeSite.dispatchLoop ls event st),
     onSite s (snd (LumeSite.dispatchLoop ls event st))).
Proof.
  revert st. induction ls as [|l ls IH]; intros st; [reflexivity|].
  cbn [LumeSite.dispatchLoop]. unfold bind.
  rewrite invoke_onSite.
  destruct (LumeSite.invoke l event st) as [[[|]|e] st1]; cbn [fst snd];
    [apply IH | reflexivity | reflexivity].
Qed.

(** X2. A listener registered for one event type plays no part in the
    dispatch of an event of another type: the outcome, the world and the
    trace are those of the dispatch on the site without it. *)
Theorem dispatchEvent_other_type (t : EventType) (l : Listener)
    (event : Event) (st : St W) :
  type event <> t ->
  LumeSite.dispatchEvent event
    (onSite (LumeSite.addEventListener t l (st_site st)) st)
  = (fst (LumeSite.dispatchEvent event st),
     onSite (LumeSite.addEventListener t l (st_site st))
       (snd (LumeSite.dispatchEvent event st))).
Proof.
  intros Hne. rewrite !dispatchEvent_unfold.
  cbn [onSite st_site st_world LumeSite.addEventListener listeners].
  rewrite lookup_insert_ne by congruence.
  change (logged (onSite ?s st) (st_world st) ?x)
    with (onSite s (logged st (st_world st) x)).
  destruct (listeners (st_site st) !! type event) as [ls|]; [|reflexivity].
  apply (dispatchLoop_onSite _ ls event (logged st (st_world st) (Dispatch event))).
Qed.

(** X3. Registrations for different event types commute. *)
Theorem addEventListener_commute (t t' : EventType) (l l' : Listener)
    (s : Site) :
  t <> t' ->
  LumeSite.addEventListener t l (LumeSite.addEventListener t' l' s)
  = LumeSite.addEventListener t' l' (LumeSite.addEventListener t l s).
Proof.
  intros Hne. unfold LumeSite.addEventListener; cbn [listeners options source pages].
  rewrite !lookup_insert_ne by congruence.
  f_equal. apply insert_insert_ne. exact Hne.
Qed.

(** X4. Registering a listener that the type already holds changes
    nothing: the listener keeps its place, whatever was registered since.
    A listener that the type does not hold yet goes to the end of the
    type's listeners, so it is dispatched after all of them. *)
Theorem addEventListener_order (t : EventType) (l : Listener) (s : Site) :
  (forall ls, listeners s !! t = Some ls -> l ∈ ls ->
              LumeSite.addEventListener t l s = s)
  /\ (l ∉ default [] (listeners s !! t) ->
      listeners (LumeSite.addEventListener t l s) !! t
      = Some (default [] (listeners s !! t) ++ [l])).
Proof.
  split.
  - intros ls Hl Hin. unfold LumeSite.addEventListener, LumeSite.setAdd.
    rewrite Hl. cbn [default from_option id].
    destruct (decide (l ∈ ls)) as [_|Hn]; [|now destruct Hn].
    rewrite (insert_id _ _ _ Hl). now destruct s.
  - intros Hn. rewrite addEventListener_lookup. unfold LumeSite.setAdd.
    destruct (decide (l ∈ default [] (listeners s !! t))) as [Hin|_];
      [now destruct Hn | reflexivity].
Qed.

End DispatchMore.

(** ** More on registration *)

Section RegistrationMore.

Lemma ignore_cons (p : string) (ps : list string) (s : Site) :
  LumeSite.ignore (p :: ps) s
  = LumeSite.ignore ps
      (LumeSite.withSource (SiteSource.addIgnoredPath (Path.join ["/"; p])) s).
Proof. reflexivity. Qed.

Lemma addIgnoredPath_member (p x : string) (src : Source) :
  x ∈ ignored (SiteSource.addIgnoredPath p src) <-> x ∈ ignored src \/ x = p.
Proof.
  unfold SiteSource.addIgnoredPath; cbn [ignored].
  destruct (decide (p ∈ ignored src)) as [Hin|Hn].
  - split; [now left | intros [Hx | ->]; assumption].
  - rewrite elem_of_app, list_elem_of_singleton. reflexivity.
Qed.

(** X5. [ignore] only adds to the ignored set: afterwards it holds what it
    held before and [join("/", p)] for each given path, and nothing else;
    the static mappings, listeners, options and pages are untouched. *)
Theorem ignore_adds (ps : list string) (s : Site) :
  (forall x,
     x ∈ ignored (source (LumeSite.ignore ps s))
     <-> x ∈ ignored (source s) \/ exists p, p ∈ ps /\ x = Path.join ["/"; p])
  /\ staticFiles (source (LumeSite.ignore ps s)) = staticFiles (source s)
  /\ listeners (LumeSite.ignore ps s) = listeners s
  /\ options (LumeSite.ignore ps s) = options s
  /\ pages (LumeSite.ignore ps s) = pages s.
Proof.
  revert s. induction ps as [|p ps IH]; intros s.
  - split; [|now repeat split]. intros x. split; [now left|].
    intros [Hx | (p & Hp & _)]; [exact Hx | now apply elem_of_nil in Hp].
  - rewrite ignore_cons.
    destruct (IH (LumeSite.withSource
                    (SiteSource.addIgnoredPath (Path.join ["/"; p])) s))
      as (Hm & Hst & Hl & Ho & Hp).
    split; [|now repeat split].
    intros x. rewrite Hm. cbn [LumeSite.withSource source].
    rewrite addIgnoredPath_member. split.
    + intros [[Hx | ->] | (q & Hq & ->)].
      * now left.
      * right. exists p. split; [apply list_elem_of_here | reflexivity].
      * right. exists q. split; [now apply list_elem_of_further | reflexivity].
    + intros [Hx | (q & Hq & ->)]; [now left; left|].
      apply elem_of_cons in Hq as [-> | Hq]; [now left; right|].
      right. now exists q.
Qed.

End RegistrationMore.

(** ** The constructor and the default roots *)

Section ConstructorMore.

Lemma lastIs_append (c : ascii) (s t : string) :
  t <> "" -> Js.lastIs c (s +:+ t) = Js.lastIs c t.
Proof.
  intros Ht. induction s as [|a s IH]; [reflexivity|].
  rewrite append_cons.
  destruct (s +:+ t) as [|b r] eqn:E.
  - destruct s; [now rewrite append_nil_l in E | discriminate].
  - cbn [Js.lastIs]. rewrite <- IH. reflexivity.
Qed.

Lemma concat_snoc (l : list string) (x : string) :
  String.concat "/" (l ++ [x])
  = match l with
    | [] => x
    | _ => String.concat "/" l +:+ "/" +:+ x
    end.
Proof.
  induction l as [|a l IH]; [reflexivity|].
  destruct l as [|b l]; [reflexivity|].
  change (String.concat "/" ((a :: b :: l) ++ [x]))
    with (a +:+ "/" +:+ String.concat "/" ((b :: l) ++ [x])).
  rewrite IH.
  change (String.concat "/" (a :: b :: l))
    with (a +:+ "/" +:+ String.concat "/" (b :: l)).
  now rewrite !append_assoc.
Qed.

Lemma pushSegment_nonempty (b : bool) (acc : list string) (seg : string) :
  Forall (fun x => x <> "") acc ->
  Forall (fun x => x <> "") (Path.pushSegment b acc seg).
Proof.
  intros Ha. unfold Path.pushSegment.
  destruct (String.eqb_spec seg ""); [exact Ha|].
  destruct (String.eqb seg "."); [exact Ha|].
  destruct (String.eqb seg "..").
  - destruct acc as [|top rest].
    + destruct b; [|exact Ha]. repeat constructor. discriminate.
    + destruct (String.eqb top "..").
      * constructor; [discriminate | exact Ha].
      * now apply Forall_inv_tail in Ha.
  - now constructor.
Qed.

Lemma fold_pushSegment_nonempty (b : bool) (segs acc : list string) :
  Forall (fun x => x <> "") acc ->
  Forall (fun x => x <> "") (fold_left (Path.pushSegment b) segs acc).
Proof.
  revert acc. induction segs as [|seg segs IH]; intros acc Ha; [exact Ha|].
  cbn [fold_left]. apply IH. now apply pushSegment_nonempty.
Qed.

Lemma concat_nonempty (l : list string) :
  l <> [] -> Forall (fun x => x <> "") l -> String.concat "/" l <> "".
Proof.
  destruct l as [|a l]; [easy|]. intros _ Hf.
  apply Forall_inv in Hf. destruct a as [|c a]; [easy|].
  destruct l; cbn [String.concat]; [discriminate|].
  rewrite append_cons. discriminate.
Qed.

(** The two default roots under an absolute working directory. *)
Lemma default_roots (c : string) :
  exists body,
    Path.join [String "/" c; "./"]
    = String "/" (if String.eqb body "" then "" else body +:+ "/")
    /\ Path.join [String "/" c; "./_site"]
       = String "/" (if String.eqb body "" then "_site"
                     else body +:+ "/" +:+ "_site").
Proof.
  set (K := fold_left (Path.pushSegment false) (Js.split (String "/" c)) []).
  exists (String.concat "/" (rev K)).
  assert (HK : Forall (fun x => x <> "") (rev K)).
  { apply Forall_rev, fold_pushSegment_nonempty. constructor. }
  assert (Hbody : rev K <> [] -> String.eqb (String.concat "/" (rev K)) "" = false).
  { intros Hn. apply String.eqb_neq. now apply concat_nonempty. }
  split.
  - change (Path.join [String "/" c; "./"])
      with (Path.normalize (String "/" (c +:+ String "/" "./"))).
    rewrite normalize_absolute. cbv zeta.
    assert (Js.lastIs "/" (String "/" (c +:+ String "/" "./")) = true) as ->.
    { change (String "/" (c +:+ String "/" "./"))
        with (String "/" c +:+ "/./").
      now rewrite lastIs_append. }
    unfold Path.normalizeString.
    change (String "/" (c +:+ String "/" "./"))
      with (String "/" c +:+ String "/" "./").
    rewrite split_app_slash, fold_left_app. fold K.
    change (fold_left (Path.pushSegment false) (Js.split "./") K) with K.
    rewrite andb_true_r. f_equal.
    destruct (String.eqb (String.concat "/" (rev K)) "") eqn:E; [|reflexivity].
    now apply String.eqb_eq in E.
  - change (Path.join [String "/" c; "./_site"])
      with (Path.normalize (String "/" (c +:+ String "/" "./_site"))).
    rewrite normalize_absolute. cbv zeta.
    assert (Js.lastIs "/" (String "/" (c +:+ String "/" "./_site")) = false) as ->.
    { change (String "/" (c +:+ String "/" "./_site"))
        with (String "/" c +:+ "/./_site").
      now rewrite lastIs_append. }
    rewrite andb_false_r. f_equal.
    unfold Path.normalizeString.
    change (String "/" (c +:+ String "/" "./_site"))
      with (String "/" c +:+ String "/" "./_site").
    rewrite split_app_slash, fold_left_app. fold K.
    change (fold_left (Path.pushSegment false) (Js.split "./_site") K)
      with ("_site" :: K).
    cbn [rev]. rewrite concat_snoc.
    destruct (rev K) as [|a r] eqn:E; [reflexivity|].
    rewrite Hbody by discriminate. reflexivity.
Qed.

(** X6. With the default source and destination and an absolute working
    directory, whatever it is, the constructor ignores the destination:
    the ignored set is exactly "/_site". *)
Theorem constructor_default_ignores (c : string) (o : PartialSiteOptions) :
  p_src o = None -> p_dest o = None -> p_cwd o = None ->
  ignored (source (LumeSite.constructor (String "/" c) o)) = ["/_site"].
Proof.
  intros Hs Hd Hc. unfold LumeSite.constructor, LumeSite.dest, LumeSite.src.
  cbn [options merge cwd opt_src opt_dest]. rewrite Hs, Hd, Hc.
  cbn [default from_option id defaults cwd opt_src opt_dest].
  destruct (default_roots c) as (body & -> & ->).
  assert (Js.startsWith
            (String "/" (if String.eqb body "" then "_site"
                         else body +:+ "/" +:+ "_site"))
            (String "/" (if String.eqb body "" then "" else body +:+ "/"))
          = true) as ->.
  { apply startsWith_spec. exists "_site".
    destruct (String.eqb body ""); [reflexivity|].
    rewrite !append_cons, append_nil_l. f_equal.
    now rewrite append_assoc. }
  reflexivity.
Qed.

(** X7. When the destination root does not start with the source root,
    the constructor registers nothing: no ignored path, no static mapping,
    no listener, no page. *)
Theorem constructor_ignores_nothing (deno_cwd : string) (o : PartialSiteOptions) :
  let s := LumeSite.constructor deno_cwd o in
  Js.startsWith (LumeSite.dest s []) (LumeSite.src s []) = false ->
  source s = SiteSource.new /\ listeners s = ∅ /\ pages s = []
  /\ forall file, SiteSource.isIgnored (source s) file = false.
Proof.
  intros s. unfold LumeSite.dest, LumeSite.src. subst s.
  rewrite constructor_options. intros Hout.
  unfold LumeSite.constructor, LumeSite.dest, LumeSite.src.
  cbn [options]. rewrite Hout. now repeat split.
Qed.

End ConstructorMore.

(** ** A destination inside a source that is not the working directory *)

Section NestedDestination.
Local Existing Instances plainExternals quietScripts quietCallables
  quietEmitter quietLoader quietRenderer quietMetrics quietConcurrency.

(** C9. With src "./src" and dest "./src/out" the destination root starts
    with the source root, so the constructor ignores the destination, but
    under the path [join("/", options.dest)], "/src/out", which is relative
    to the working directory; seen from the source root the destination is
    "/out".  The emitted file [dest("index.html")] is the source file
    [src("/out/index.html")]; it is not ignored, and [update] reloads it:
    the output is ingested again. *)
Theorem constructor_ignores_cwd_relative :
  Js.startsWith (LumeSite.dest nestedSite []) (LumeSite.src nestedSite []) = true
  /\ ignored (source nestedSite) = [Path.join ["/"; opt_dest (options nestedSite)]]
  /\ Path.join ["/"; opt_dest (options nestedSite)] = "/src/out"
  /\ LumeSite.dest nestedSite ["index.html"]
     = LumeSite.src nestedSite ["/out/index.html"]
  /\ SiteSource.isIgnored (source nestedSite) "/out/index.html" = false
  /\ LumeSite.classify nestedSite "/out/index.html" = LumeSite.GenericReload
  /\ LumeSite.updateFile "/out/index.html" (startOf nestedSite)
     = LumeSite.loadFile "/out/index.html" (startOf nestedSite)
  /\ st_trace (snd (LumeSite.update ["/out/index.html"] (startOf nestedSite)))
     = [Dispatch {| type := beforeUpdate; files := Some ["/out/index.html"] |};
        LoadFile "/out/index.html"; BuildPages [];
        Dispatch {| type := beforeSave; files := None |}; SavePages [];
        Dispatch {| type := afterUpdate; files := Some ["/out/index.html"] |}].
Proof. repeat split. Qed.

End NestedDestination.

(** ** More on the URL resolver *)

Section UrlMore.
Context {W : Type}.
Context `{Externals, Scripts W, Callables W, Emitter W, Loader W,
          Renderer W, Metrics W, Concurrency W}.

(** X8. [url] can only fail on a path with the source marker: every
    other path resolves. *)
Theorem url_fails_only_on_marker (s : Site) (p : string) (absolute : bool) :
  Js.startsWith p "~/" = false ->
  exists u, LumeSite.url s p absolute = Ret u.
Proof.
  intros Hm. unfold LumeSite.url. rewrite Hm.
  destruct (Js.startsWith p "./" || Js.startsWith p "../"
            || Js.startsWith p "?" || Js.startsWith p "#"
            || Js.startsWith p "//"); [now eexists|].
  destruct (newURL p); now eexists.
Qed.

(** X9. Asking for an absolute URL changes neither the path part nor the
    failure: the result is the origin followed by the relative result,
    except for the paths that pass through (special prefixes and parsed
    URLs), which come back the same. *)
Theorem url_absolute (s : Site) (p : string) :
  LumeSite.url s p true
  = match LumeSite.url s p false with
    | Ret u =>
        Ret (if passesThrough p then u
             else origin (location (options s)) +:+ u)
    | Throw e => Throw e
    end.
Proof.
  unfold LumeSite.url, passesThrough, isSpecial, LumeSite.qualify.
  destruct (Js.startsWith p "./" || Js.startsWith p "../"
            || Js.startsWith p "?" || Js.startsWith p "#"
            || Js.startsWith p "//"); [reflexivity|].
  cbn [orb].
  destruct (Js.startsWith p "~/"); cbn [negb andb].
  - destruct (decodeURI _) as [d|]; [|reflexivity].
    destruct (find _ (pages s)) as [page|]; [reflexivity|].
    destruct (SiteSource.isStatic (source s) d) as [[from to]|]; reflexivity.
  - destruct (newURL p); reflexivity.
Qed.

Lemma join_absolute_first (base p : string) :
  Js.startsWith base "/" = true ->
  Js.startsWith (Path.join [base; p]) "/" = true.
Proof.
  intros [b ->]%startsWith_spec.
  change ("/" +:+ b) with (String "/" b).
  unfold Path.join. cbn [fold_left]. unfold Path.glue at 2.
  change (String.eqb (String "/" b) "") with false. cbv iota.
  unfold Path.glue.
  change (String.eqb (String "/" b) "") with false. cbv iota.
  destruct (String.eqb p "").
  - change (String.eqb (String "/" b) "") with false. cbv iota.
    rewrite normalize_absolute. apply startsWith_cons.
  - rewrite append_cons.
    change (String.eqb (String "/" (b +:+ "/" +:+ p)) "") with false.
    cbv iota. rewrite normalize_absolute. apply startsWith_cons.
Qed.

(** X10. A path that is neither special, nor marked, nor a URL resolves
    (relative form) to a path that begins with "/" as the base path does;
    a path already under the base path comes back unchanged. *)
Theorem url_rooted (s : Site) (p : string) :
  isSpecial p = false -> Js.startsWith p "~/" = false -> newURL p = None ->
  Js.startsWith (pathname (location (options s))) "/" = true ->
  exists u,
    LumeSite.url s p false = Ret u
    /\ Js.startsWith u "/" = true
    /\ (Js.startsWith p (pathname (location (options s))) = true -> u = p).
Proof.
  intros Hs Hm Hu Hb. unfold LumeSite.url. unfold isSpecial in Hs.
  rewrite Hs, Hm, Hu. unfold LumeSite.qualify.
  destruct (Js.startsWith p (pathname (location (options s)))) eqn:Hp;
    cbn [negb]; eexists; (split; [reflexivity|]); split; auto.
  - apply startsWith_spec in Hp as [r ->].
    apply startsWith_spec in Hb as [b ->].
    rewrite append_assoc. apply startsWith_spec. eauto.
  - now apply join_absolute_first.
  - discriminate.
Qed.

Lemma slice_append (from tail : string) :
  Js.slice (String.length from) (from +:+ tail) = tail.
Proof. induction from as [|a from IH]; [now destruct tail | exact IH]. Qed.

(** X11. A marked path that is no page's source file and lies under a
    static mapping's source prefix resolves through the first such
    mapping: the source prefix is replaced by the destination prefix
    ([join(to, tail)]), the result is normalized and qualified. *)
Theorem url_static_mapping (s : Site) (rest from to tail : string) (absolute : bool)
    (before after : list (string * string)) :
  decodeURI ("/" +:+ rest) = Some (from +:+ tail) ->
  (forall page, page ∈ pages s -> sourceFile page <> from +:+ tail) ->
  staticFiles (source s) = before ++ (from, to) :: after ->
  (forall e, e ∈ before -> Js.startsWith (from +:+ tail) (fst e) = false) ->
  LumeSite.url s ("~/" +:+ rest) absolute
  = Ret (LumeSite.qualify s (normalizePath (Path.join [to; tail])) absolute).
Proof.
  intros Hd Hp Hst Hb. rewrite url_marker, Hd.
  rewrite find_absent.
  - unfold SiteSource.isStatic. rewrite Hst.
    rewrite (find_first _ before after (from, to)).
    + now rewrite slice_append.
    + exact Hb.
    + apply startsWith_spec. now exists tail.
  - intros page Hin. apply String.eqb_neq. now apply Hp.
Qed.

End UrlMore.

(** ** More on the classifier and the pipelines *)

Section PipelineMore.
Context {W : Type}.
Context `{Externals, Scripts W, Callables W, Emitter W, Loader W,
          Renderer W, Metrics W, Concurrency W}.

Lemma includes_unfold (s sub : string) :
  Js.includes s sub
  = String.prefix sub s
    || match s with
       | EmptyString => false
       | String _ r => Js.includes r sub
       end.
Proof. destruct s; reflexivity. Qed.

Lemma includes_middle (pre sub post : string) :
  Js.includes (pre +:+ sub +:+ post) sub = true.
Proof.
  induction pre as [|a pre IH]; rewrite includes_unfold.
  - rewrite append_nil_l.
    assert (Js.startsWith (sub +:+ post) sub = true) as Hp
      by (apply startsWith_spec; eauto).
    unfold Js.startsWith in Hp. now rewrite Hp.
  - rewrite append_cons, IH. apply orb_true_r.
Qed.

(** X12. Every path the data pattern accepts also counts as hidden: it
    is the order of the two tests that makes it a reload and not a skip. *)
Theorem data_paths_look_hidden (normalized : string) :
  LumeSite.dataPattern normalized = true ->
  LumeSite.hidden normalized = true.
Proof.
  intros (pre & post & -> & _)%dataPattern_spec.
  unfold LumeSite.hidden.
  change (pre +:+ "/_data" +:+ post) with (pre +:+ "/_" +:+ ("data" +:+ post)).
  now rewrite includes_middle.
Qed.

(** X13. The loop body of [update] adds at most one step, a copy or a
    reload of the file at hand, and leaves the site's registries alone;
    it reloads the file exactly when the file is neither static nor
    ignored and is a data path or has no hidden segment. *)
Theorem updateFile_reloads (file : string) (st st' : St W) (o : Outcome unit) :
  LumeSite.updateFile file st = (o, st') ->
  sameRegistries (st_site st) (st_site st')
  /\ exists steps,
       added st st' steps
       /\ (steps = [] \/ steps = [LoadFile file]
           \/ exists target, steps = [CopyFile file target])
       /\ (LoadFile file ∈ steps
           <-> SiteSource.isStatic (source (st_site st)) file = None
               /\ SiteSource.isIgnored (source (st_site st)) file = false
               /\ (LumeSite.dataPattern (normalizePath file) = true
                   \/ LumeSite.hidden (normalizePath file) = false)).
Proof.
  rewrite updateFile_act. unfold LumeSite.classify.
  assert (Hload : forall st1 o1,
            LumeSite.loadFile file st = (o1, st1) ->
            sameRegistries (st_site st) (st_site st1)
            /\ added st st1 [LoadFile file]).
  { intros st1 o1. unfold LumeSite.loadFile, bind, getSite, perform, setPages.
    destruct (source_loadFile file (st_site st) (st_world st)) as [[ps|e] w];
      intros [= <- <-]; (split; [now repeat split | reflexivity]). }
  assert (Hin : LoadFile file ∈ [LoadFile file]) by apply list_elem_of_here.
  destruct (SiteSource.isStatic (source (st_site st)) file) as [[from to]|].
  - cbn [LumeSite.act]. unfold LumeSite.copyFile, perform.
    destruct (emitter_copyFile _ _ _) as [o1 w]. intros [= <- <-].
    split; [apply sameRegistries_refl|]. eexists. split; [reflexivity|].
    split; [right; right; eauto|]. split; [|now intros [[=] _]].
    intros [[=] | Hx%elem_of_nil]%elem_of_cons; contradiction.
  - destruct (SiteSource.isIgnored (source (st_site st)) file).
    + intros [= <- <-]. split; [apply sameRegistries_refl|]. exists [].
      split; [unfold added; now rewrite app_nil_r|]. split; [now left|].
      split; [now intros Hx%elem_of_nil | now intros (_ & [=] & _)].
    + destruct (LumeSite.dataPattern (normalizePath file)).
      * cbn [LumeSite.act]. intros E. destruct (Hload _ _ E) as [Hs Ha].
        split; [exact Hs|]. exists [LoadFile file]. split; [exact Ha|].
        split; [now right; left|]. split; auto.
      * destruct (LumeSite.hidden (normalizePath file)).
        -- intros [= <- <-]. split; [apply sameRegistries_refl|]. exists [].
           split; [unfold added; now rewrite app_nil_r|]. split; [now left|].
           split; [now intros Hx%elem_of_nil|].
           now intros (_ & _ & [[=] | [=]]).
        -- cbn [LumeSite.act]. intros E. destruct (Hload _ _ E) as [Hs Ha].
           split; [exact Hs|]. exists [LoadFile file]. split; [exact Ha|].
           split; [now right; left|]. split; auto.
Qed.

Lemma filePhases_updatePhase (s : Site) (fs : list string) (file : string) :
  file ∈ fs -> Forall (updatePhase fs) (filePhases s file).
Proof.
  intros Hin. unfold filePhases.
  destruct (LumeSite.classify s file);
    repeat (apply List.Forall_cons; [exact Hin|]); apply List.Forall_nil.
Qed.

Lemma updatePhases_allowed (s : Site) (fs : list string) :
  Forall (updatePhase fs) (updatePhases s fs).
Proof.
  unfold updatePhases. apply Forall_app. split.
  - apply List.Forall_cons; [cbn; auto | apply List.Forall_nil].
  - apply Forall_app. split.
    + apply Forall_flat_map, Forall_forall. intros file Hin.
      now apply filePhases_updatePhase.
    + repeat (apply List.Forall_cons; [cbn; auto|]). apply List.Forall_nil.
Qed.


Lemma phases_invocations (event : Event) (ls : list Listener) :
  phases (map (invocation event) ls) = [].
Proof. induction ls as [|[name|ref] ls IH]; [reflexivity| exact IH..]. Qed.

(** X15. A [beforeBuild] listener that throws aborts the build with its
    exception before the destination is cleared: the run ends in the state
    the dispatch left, and the dispatch is its only phase. *)
Theorem build_aborted_by_listener (st st' : St W) (w : W) (e : Exn) :
  metrics_start "Build (entire site)" (st_world st) = (Ret tt, w) ->
  LumeSite.dispatchEvent {| type := beforeBuild; files := None |}
    (logged st w (MetricStart "Build (entire site)")) = (Throw e, st') ->
  LumeSite.build st = (Throw e, st')
  /\ phases (st_trace st') = phases (st_trace st) ++ [PhDispatch beforeBuild].
Proof.
  intros Hm Hd. split.
  - unfold LumeSite.build, LumeSite.start.
    rewrite (bind_ret _ _ _ _ _ (perform_eq _ _ _ _ _ Hm)).
    now rewrite (bind_throw _ _ _ _ _ Hd).
  - destruct (listeners (st_site (logged st w (MetricStart "Build (entire site)")))
              !! type {| type := beforeBuild; files := None |}) as [ls|] eqn:El.
    + destruct (dispatchEvent_trace _ ls _ _ _ El Hd)
        as (_ & done & rest & _ & Ht & _).
      rewrite Ht. cbn [logged st_trace]. unfold phases.
      rewrite !omap_app. cbn [omap list_omap phaseOf type].
      fold (phases (map (invocation {| type := beforeBuild; files := None |}) done)).
      rewrite phases_invocations. cbn. now rewrite app_nil_r.
    + rewrite dispatchEvent_unfold, El in Hd. discriminate.
Qed.

Lemma copyAll_app (a b : list (string * string)) (st : St W) :
  LumeSite.copyAll (a ++ b) st
  = bind (LumeSite.copyAll a) (fun _ => LumeSite.copyAll b) st.
Proof.
  revert st. induction a as [|[from to] a IH]; intros st; [reflexivity|].
  cbn [app LumeSite.copyAll]. unfold bind at 1 2 3.
  destruct (LumeSite.copyFile from to st) as [[[]|e] st1]; [apply IH|reflexivity].
Qed.

(** X16. A copy that throws stops the copy loop with its exception: the
    mappings before it were copied, in order, and none after it. *)
Theorem copyAll_stops_at_failure (pre post : list (string * string))
    (from to : string) (st st1 : St W) (w : W) (e : Exn) :
  LumeSite.copyAll pre st = (Ret tt, st1) ->
  emitter_copyFile from to (st_world st1) = (Throw e, w) ->
  LumeSite.copyAll (pre ++ (from, to) :: post) st
  = (Throw e, logged st1 w (CopyFile from to))
  /\ added st (logged st1 w (CopyFile from to))
       (map (fun m => CopyFile (fst m) (snd m)) (pre ++ [(from, to)])).
Proof.
  intros Hp Hf. split.
  - rewrite copyAll_app, (bind_ret _ _ _ _ _ Hp). cbn [LumeSite.copyAll].
    unfold LumeSite.copyFile.
    now rewrite (bind_throw _ _ _ _ _ (perform_eq _ _ _ _ _ Hf)).
  - unfold added. cbn [logged st_trace]. rewrite map_app, app_assoc. f_equal.
    clear Hf. revert st Hp. induction pre as [|[f t] pre IH]; intros st.
    + intros [= <-]. now rewrite app_nil_r.
    + cbn [LumeSite.copyAll map fst snd]. unfold bind, LumeSite.copyFile, perform.
      destruct (emitter_copyFile f t (st_world st)) as [[[]|e'] w'];
        [|discriminate].
      intros Hr. rewrite (IH _ Hr). cbn [logged st_trace].
      now rewrite <- app_assoc.
Qed.

End PipelineMore.

(** ** The content of a file or page *)

Section FilesMore.
Context {W : Type}.
Context `{Externals, FileLoader W}.

(** X17. The content of a URL that a loaded page has is the content of the
    first such page; the loader is not called and the world is as it was,
    even if a static mapping covers the URL too. *)
Theorem getFileContent_page (s : Site) (u : string) (w : W)
    (before after : list Page) (page : Page) :
  pages s = before ++ page :: after ->
  (forall q, q ∈ before -> data_url (page_data q) <> u) ->
  data_url (page_data page) = u ->
  LumeSite.getFileContent s u w = (Ret (page_content page), w).
Proof.
  intros Hp Hb Hu. unfold LumeSite.getFileContent. rewrite Hp.
  rewrite (find_first _ before after page); [reflexivity| |].
  - intros q Hq. apply String.eqb_neq. now apply Hb.
  - now apply String.eqb_eq.
Qed.

(** X18. The content of a URL that no page has and that lies under a
    static mapping's destination prefix is read from the source tree: the
    first such mapping, in registration order, maps it back, and the
    binary loader is asked for [src(from, tail)]. *)
Theorem getFileContent_static (s : Site) (from to tail : string) (w : W)
    (before after : list (string * string)) :
  (forall q, q ∈ pages s -> data_url (page_data q) <> to +:+ tail) ->
  staticFiles (source s) = before ++ (from, to) :: after ->
  (forall e, e ∈ before -> Js.startsWith (to +:+ tail) (snd e) = false) ->
  LumeSite.getFileContent s (to +:+ tail) w
  = LumeSite.loadContent (LumeSite.src s [from; tail]) w.
Proof.
  intros Hp Hst Hb. unfold LumeSite.getFileContent.
  rewrite find_absent.
  - rewrite Hst, (find_first _ before after (from, to)).
    + now rewrite slice_append.
    + exact Hb.
    + apply startsWith_spec. now exists tail.
  - intros q Hq. apply String.eqb_neq. now apply Hp.
Qed.

(** X19. The content of a URL that no page has and no static mapping's
    destination covers is read from the source tree at the URL itself;
    what the loader throws comes out unchanged. *)
Theorem getFileContent_source (s : Site) (u : string) (w : W) :
  (forall q, q ∈ pages s -> data_url (page_data q) <> u) ->
  (forall e, e ∈ staticFiles (source s) -> Js.startsWith u (snd e) = false) ->
  LumeSite.getFileContent s u w = LumeSite.loadContent (LumeSite.src s [u]) w
  /\ forall e w',
       source_load (LumeSite.src s [u]) binaryLoader w = (Throw e, w') ->
       LumeSite.getFileContent s u w = (Throw e, w').
Proof.
  intros Hp Hst.
  assert (E : LumeSite.getFileContent s u w
              = LumeSite.loadContent (LumeSite.src s [u]) w).
  { unfold LumeSite.getFileContent. rewrite !find_absent; [reflexivity| |].
    - exact Hst.
    - intros q Hq. apply String.eqb_neq. now apply Hp. }
  split; [exact E|]. intros e w' Hl. rewrite E.
  unfold LumeSite.loadContent. now rewrite Hl.
Qed.

Lemma pushSegment_empty (b : bool) (acc : list string) :
  Path.pushSegment b acc "" = acc.
Proof. reflexivity. Qed.

(** A doubled separator inside a path does not change its normal form. *)
Lemma normalize_double_slash (x t : string) :
  x <> "" ->
  Path.normalize (x +:+ String "/" (String "/" t))
  = Path.normalize (x +:+ String "/" t).
Proof.
  intros Hx. destruct x as [|a x]; [now destruct Hx|].
  assert (Hs : forall b,
             Path.normalizeString (String a x +:+ String "/" (String "/" t)) b
             = Path.normalizeString (String a x +:+ String "/" t) b).
  { intros b. unfold Path.normalizeString.
    rewrite !split_app_slash.
    change (Js.split (String "/" t)) with ("" :: Js.split t).
    rewrite !fold_left_app. reflexivity. }
  assert (Hl : Js.lastIs "/" (String a x +:+ String "/" (String "/" t))
               = Js.lastIs "/" (String a x +:+ String "/" t)).
  { rewrite !lastIs_append by discriminate. reflexivity. }
  unfold Path.normalize. rewrite !Hs, Hl. rewrite !append_cons.
  unfold Js.startsWith. cbn [String.prefix String.eqb].
  destruct (ascii_dec "/" a); [now rewrite !prefix_empty | reflexivity].
Qed.

(** Handing [join] a path in two pieces cut at a segment boundary is
    handing it the whole path. *)
Lemma join_boundary (pre : list string) (from tail : string) :
  tail = "" \/ (exists t, tail = "/" +:+ t) ->
  Path.join (pre ++ [from; tail]) = Path.join (pre ++ [from +:+ tail]).
Proof.
  unfold Path.join. rewrite !fold_left_app. cbn [fold_left].
  set (G := fold_left Path.glue pre None).
  intros [-> | [t ->]].
  - now rewrite append_empty_r.
  - change ("/" +:+ t) with (String "/" t).
    destruct (String.eqb_spec from "") as [-> | Hne].
    + reflexivity.
    + assert (Hft : String.eqb (from +:+ String "/" t) "" = false).
      { destruct from; [now destruct Hne | reflexivity]. }
      assert (Hcase : forall x, x <> "" ->
                Path.glue (Some x) (String "/" t)
                = Some (x +:+ String "/" (String "/" t))).
      { intros x Hx. unfold Path.glue. cbn [String.eqb].
        apply String.eqb_neq in Hx. now rewrite Hx. }
      assert (Hnorm : forall x, x <> "" ->
                (if String.eqb (x +:+ String "/" (String "/" t)) ""
                 then "." else Path.normalize (x +:+ String "/" (String "/" t)))
                = (if String.eqb (x +:+ String "/" t) ""
                   then "." else Path.normalize (x +:+ String "/" t))).
      { intros x Hx. rewrite (normalize_double_slash x t Hx).
        destruct x; [now destruct Hx | reflexivity]. }
      apply String.eqb_neq in Hne.
      destruct G as [j|].
      * unfold Path.glue at 2 3. rewrite Hne, Hft.
        destruct (String.eqb_spec j "") as [-> | Hj].
        -- rewrite (Hcase from) by now apply String.eqb_neq.
           apply Hnorm. now apply String.eqb_neq.
        -- assert (Hx : j +:+ "/" +:+ from <> "")
             by (destruct j; [now destruct Hj | discriminate]).
           rewrite (Hcase _ Hx).
           replace (j +:+ "/" +:+ from +:+ String "/" t)
             with ((j +:+ "/" +:+ from) +:+ String "/" t)
             by now rewrite !append_assoc.
           now apply Hnorm.
      * unfold Path.glue at 2 3. rewrite Hne, Hft.
        rewrite (Hcase from) by now apply String.eqb_neq.
        apply Hnorm. now apply String.eqb_neq.
Qed.


End FilesMore.

(** ** The Eta engine adapter *)

Section EtaFacts.
Context {W : Type}.
Context `{Eta.EtaLib W}.

(** X21. A helper of type "filter" is registered under its name, replacing
    what the name held and leaving every other name and the template cache
    alone; a helper of any other type changes nothing at all. *)
Theorem addHelper_registers (this : Eta.Eta) (name : string)
    (fn : Eta.Helper) (options : Eta.HelperOptions) :
  (Eta.helper_type options = "filter" ->
     Eta.filters (Eta.addHelper this name fn options) !! name = Some fn
     /\ (forall other, other <> name ->
           Eta.filters (Eta.addHelper this name fn options) !! other
           = Eta.filters this !! other)
     /\ Eta.templates (Eta.engine (Eta.addHelper this name fn options))
        = Eta.templates (Eta.engine this))
  /\ (Eta.helper_type options <> "filter" ->
      Eta.addHelper this name fn options = this).
Proof.
  unfold Eta.addHelper. split.
  - intros ->. cbn [String.eqb Ascii.eqb Bool.eqb Eta.filters Eta.engine].
    split; [apply lookup_insert_eq|]. split.
    + intros other Hne. now apply lookup_insert_ne.
    + now destruct (Eta.helper_async options).
  - intros Hne. apply String.eqb_neq in Hne. now rewrite Hne.
Qed.

Lemma addHelpers_cons (this : Eta.Eta)
    (h : string * Eta.Helper * Eta.HelperOptions)
    (hs : list (string * Eta.Helper * Eta.HelperOptions)) :
  addHelpers this (h :: hs)
  = addHelpers (Eta.addHelper this (fst (fst h)) (snd (fst h)) (snd h)) hs.
Proof. reflexivity. Qed.

Lemma addHelper_async (this : Eta.Eta) (name : string) (fn : Eta.Helper)
    (options : Eta.HelperOptions) :
  Eta.async (Eta.config (Eta.engine (Eta.addHelper this name fn options)))
  = Eta.async (Eta.config (Eta.engine this))
    || asksAsync (name, fn, options).
Proof.
  unfold Eta.addHelper, asksAsync. cbn [snd].
  destruct (String.eqb (Eta.helper_type options) "filter");
    cbn [andb]; [|now rewrite orb_false_r].
  destruct (Eta.helper_async options); cbn [Eta.engine Eta.config];
    [now rewrite orb_true_r | now rewrite orb_false_r].
Qed.

(** X22. The asynchronous mode is only ever switched on: after any
    sequence of registrations it is on exactly when it was on before or
    one of them was a filter that asked for it; a later synchronous
    filter does not switch it off. *)
Theorem addHelpers_async (this : Eta.Eta)
    (hs : list (string * Eta.Helper * Eta.HelperOptions)) :
  Eta.async (Eta.config (Eta.engine (addHelpers this hs)))
  = Eta.async (Eta.config (Eta.engine this)) || existsb asksAsync hs.
Proof.
  revert this. induction hs as [|[[name fn] options] hs IH]; intros this.
  - cbn. now rewrite orb_false_r.
  - rewrite addHelpers_cons, IH. cbn [fst snd existsb].
    now rewrite addHelper_async, orb_assoc.
Qed.

Lemma render_cached (this : Eta.Eta) (content filename : string)
    (data : gmap string Eta.DataValue) (w : W) (fn : Eta.Template) :
  Eta.templates (Eta.engine this) !! filename = Some fn ->
  Eta.render this content data filename w
  = let data' := <["filters" := Eta.Filters (Eta.filters this)]> data in
    {| Eta.outcome := fst (Eta.runTemplate fn data' (Eta.config (Eta.engine this)) w);
       Eta.eta_after := this;
       Eta.data_after := data';
       Eta.world_after :=
         snd (Eta.runTemplate fn data' (Eta.config (Eta.engine this)) w) |}.
Proof.
  intros Hc. unfold Eta.render. rewrite Hc. cbv zeta. rewrite Hc.
  now destruct (Eta.runTemplate _ _ _ _).
Qed.

Lemma render_fresh (this : Eta.Eta) (content filename : string)
    (data : gmap string Eta.DataValue) (w : W) (fn : Eta.Template) :
  Eta.templates (Eta.engine this) !! filename = None ->
  Eta.compile content (Eta.config (Eta.engine this)) = Ret fn ->
  Eta.render this content data filename w
  = let data' := <["filters" := Eta.Filters (Eta.filters this)]> data in
    let this' := {| Eta.engine := Eta.define filename fn (Eta.engine this);
                    Eta.filters := Eta.filters this |} in
    {| Eta.outcome := fst (Eta.runTemplate fn data' (Eta.config (Eta.engine this)) w);
       Eta.eta_after := this';
       Eta.data_after := data';
       Eta.world_after :=
         snd (Eta.runTemplate fn data' (Eta.config (Eta.engine this)) w) |}.
Proof.
  intros Hn Hc. unfold Eta.render. rewrite Hn, Hc. cbv zeta.
  cbn [Eta.engine Eta.define Eta.templates Eta.filters Eta.config].
  rewrite lookup_insert_eq.
  now destruct (Eta.runTemplate _ _ _ _).
Qed.

(** X23. A file name is compiled once: when the cache holds a template
    for the file name, [render] runs that template whatever text it is
    given, compiles nothing and leaves the adapter as it is. *)
Theorem render_uses_cache (this : Eta.Eta) (content filename : string)
    (data : gmap string Eta.DataValue) (w : W) (fn : Eta.Template) :
  Eta.templates (Eta.engine this) !! filename = Some fn ->
  let r := Eta.render this content data filename w in
  let data' := <["filters" := Eta.Filters (Eta.filters this)]> data in
  (Eta.outcome r, Eta.world_after r)
  = Eta.runTemplate fn data' (Eta.config (Eta.engine this)) w
  /\ Eta.eta_after r = this.
Proof.
  intros Hc. cbv zeta. rewrite (render_cached _ _ _ _ _ _ Hc). cbv zeta.
  cbn [Eta.outcome Eta.world_after Eta.eta_after].
  now destruct (Eta.runTemplate _ _ _ _).
Qed.

(** X24. The first render of a file name decides its template: after a
    render that compiled [first], a second render of the same file name
    with another text still runs the template of [first]. *)
Theorem render_twice (this : Eta.Eta) (first second filename : string)
    (d1 d2 : gmap string Eta.DataValue) (w1 w2 : W) (fn : Eta.Template) :
  Eta.templates (Eta.engine this) !! filename = None ->
  Eta.compile first (Eta.config (Eta.engine this)) = Ret fn ->
  let this' := Eta.eta_after (Eta.render this first d1 filename w1) in
  let r := Eta.render this' second d2 filename w2 in
  (Eta.outcome r, Eta.world_after r)
  = Eta.runTemplate fn (<["filters" := Eta.Filters (Eta.filters this)]> d2)
      (Eta.config (Eta.engine this)) w2
  /\ Eta.eta_after r = this'.
Proof.
  intros Hn Hc. cbv zeta. rewrite (render_fresh _ _ _ _ _ _ Hn Hc). cbv zeta.
  cbn [Eta.eta_after].
  rewrite (render_cached _ second filename d2 w2 fn).
  - cbv zeta. cbn [Eta.outcome Eta.world_after Eta.eta_after Eta.filters
                     Eta.engine Eta.define Eta.config].
    now destruct (Eta.runTemplate _ _ _ _).
  - cbn [Eta.engine Eta.define Eta.templates]. apply lookup_insert_eq.
Qed.

(** X25. A template text that does not compile makes [render] throw the
    compiler's exception and change nothing: no cache entry, the data
    object and the world as they were. *)
Theorem render_compile_error (this : Eta.Eta) (content filename : string)
    (data : gmap string Eta.DataValue) (w : W) (e : Exn) :
  Eta.templates (Eta.engine this) !! filename = None ->
  Eta.compile content (Eta.config (Eta.engine this)) = Throw e ->
  Eta.render this content data filename w
  = {| Eta.outcome := Throw e; Eta.eta_after := this;
       Eta.data_after := data; Eta.world_after := w |}.
Proof. intros Hn Hc. unfold Eta.render. now rewrite Hn, Hc. Qed.

(** X26. Unless compilation fails, [render] hands the template, and
    leaves in the caller's data object, the adapter's filters under the
    key "filters", replacing what the key held; every other key is kept;
    the adapter's filters and configuration are unchanged, and the cache
    gains at most the file name. *)
Theorem render_data_filters (this : Eta.Eta) (content filename : string)
    (data : gmap string Eta.DataValue) (w : W) :
  let r := Eta.render this content data filename w in
  (Eta.templates (Eta.engine this) !! filename = None ->
   exists fn, Eta.compile content (Eta.config (Eta.engine this)) = Ret fn) ->
  Eta.data_after r !! "filters" = Some (Eta.Filters (Eta.filters this))
  /\ (forall key, key <> "filters" -> Eta.data_after r !! key = data !! key)
  /\ Eta.filters (Eta.eta_after r) = Eta.filters this
  /\ Eta.config (Eta.engine (Eta.eta_after r)) = Eta.config (Eta.engine this)
  /\ (forall other, other <> filename ->
        Eta.templates (Eta.engine (Eta.eta_after r)) !! other
        = Eta.templates (Eta.engine this) !! other).
Proof.
  cbv zeta. intros Hok.
  destruct (Eta.templates (Eta.engine this) !! filename) as [fn|] eqn:Hc.
  - rewrite (render_cached _ _ _ _ _ _ Hc). cbv zeta.
    cbn [Eta.data_after Eta.eta_after].
    split; [apply lookup_insert_eq|].
    split; [intros key Hk; now apply lookup_insert_ne|]. now repeat split.
  - destruct (Hok eq_refl) as [fn Hfn].
    rewrite (render_fresh _ _ _ _ _ _ Hc Hfn). cbv zeta.
    cbn [Eta.data_after Eta.eta_after Eta.engine Eta.define Eta.templates
           Eta.filters Eta.config].
    split; [apply lookup_insert_eq|].
    split; [intros key Hk; now apply lookup_insert_ne|].
    split; [reflexivity|]. split; [reflexivity|].
    intros other Hne. now apply lookup_insert_ne.
Qed.

End EtaFacts.

(** ** Examples *)

Section Examples.
Local Existing Instances plainExternals quietScripts quietCallables
  quietEmitter quietLoader quietRenderer quietMetrics quietConcurrency.

Example join_root_rel : Path.join ["/"; "assets"] = "/assets".
Proof. reflexivity. Qed.
Example join_root_abs : Path.join ["/"; "/assets"] = "/assets".
Proof. reflexivity. Qed.
Example join_root_dot : Path.join ["/"; "./_site"] = "/_site".
Proof. reflexivity. Qed.
Example join_cwd :
  Path.join ["/home/u/site"; "./"; "a/../b/"] = "/home/u/site/b/".
Proof. reflexivity. Qed.
Example join_rel_up : Path.join ["a"; "../../b"] = "../b".
Proof. reflexivity. Qed.
Example join_empty : Path.join [""; ""] = ".".
Proof. reflexivity. Qed.

Example example_roots :
  LumeSite.src exampleSite [] = "/home/u/site/"
  /\ LumeSite.dest exampleSite [] = "/home/u/site/_site"
  /\ ignored (source exampleSite) = ["/_site"].
Proof. repeat split. Qed.

(** Scenarios A, B and C of the spec, and some neighbours. *)
Example scenario_classes :
  map (LumeSite.classify (LumeSite.copy "assets" None exampleSite))
    ["/assets/logo.png"; "/_data/colors.yml"; "/_partials/header.html";
     "/_site/index.html"; "/index.md"; "/_data.yml"; "/_data";
     "_data/colors.yml"; "/x/_data.tar.gz"; "/_database/x"]
  = [LumeSite.Static "/assets" "/assets"; LumeSite.DataReload;
     LumeSite.HiddenSkip; LumeSite.Ignored; LumeSite.GenericReload;
     LumeSite.DataReload; LumeSite.HiddenSkip; LumeSite.GenericReload;
     LumeSite.HiddenSkip; LumeSite.HiddenSkip].
Proof. reflexivity. Qed.

Example url_static :
  LumeSite.url (LumeSite.copy "assets" None exampleSite)
    "~/assets/logo.png" true
  = Ret "http://localhost/assets/logo.png".
Proof. reflexivity. Qed.

Example url_relative : LumeSite.url blogSite "../x" true = Ret "../x".
Proof. reflexivity. Qed.

Example url_plain : LumeSite.url blogSite "/a/b" true
                    = Ret "https://example.com/blog/a/b".
Proof. reflexivity. Qed.

Example bus_listeners :
  listeners busSite !! beforeBuild
  = Some [Callable 1; Callable 2; Callable 3].
Proof. vm_compute. reflexivity. Qed.

(** The build of [busSite] in the quiet world: sixteen collaborator calls
    were made, the second listener's [false] notwithstanding. *)
Example build_calls :
  st_world (snd (LumeSite.build (startOf busSite))) = 16
  /\ fst (LumeSite.build (startOf busSite)) = Ret tt.
Proof. split; reflexivity. Qed.

Lemma oneByOne_quiet (ps : list Page) (w : nat) :
  exists w', oneByOne ps emitter_savePage w = (Ret tt, w').
Proof.
  revert w. induction ps as [|p ps IH]; intros w; simpl; eauto.
Qed.

Lemma quiet_NoThrow : NoThrow (W := nat).
Proof.
  constructor; intros; simpl; eauto using oneByOne_quiet.
Qed.

End Examples.

(** ** The claims at concrete inputs *)

Section Witnesses.
Local Existing Instances plainExternals quietScripts quietCallables
  quietEmitter quietLoader quietRenderer quietMetrics quietConcurrency.

(** Three listeners on [beforeBuild]: the first passes, the second
    vetoes, the third is never invoked. *)
Lemma dispatchEvent_sequential_witness :
  LumeSite.dispatchEvent beforeBuildEvent (startOf busSite)
  = (Ret false,
     {| st_site := busSite; st_world := 2;
        st_trace := [Dispatch beforeBuildEvent; CallFn 1 beforeBuildEvent;
                     CallFn 2 beforeBuildEvent] |})
  /\ [Dispatch beforeBuildEvent; CallFn 1 beforeBuildEvent;
      CallFn 2 beforeBuildEvent]
     = [] ++ Dispatch beforeBuildEvent
          :: map (invocation beforeBuildEvent) ([Callable 1] ++ [Callable 2]).
Proof.
  apply (proj1 (proj2 (dispatchEvent_sequential beforeBuildEvent
                         (startOf busSite)))
           [Callable 1] (Callable 2) [Callable 3]
           {| st_site := busSite; st_world := 1;
              st_trace := [Dispatch beforeBuildEvent;
                           CallFn 1 beforeBuildEvent] |}).
  - vm_compute. reflexivity.
  - eapply passes_cons; [reflexivity | apply passes_nil].
  - reflexivity.
Defined.

Lemma listener_outcome_witness :
  LumeSite.dispatchLoop [Named "deploy"] beforeBuildEvent (startOf exampleSite)
  = (Ret true, logged (startOf exampleSite) 1 (RunScript "deploy"))
  /\ LumeSite.dispatchLoop [Callable 0] beforeBuildEvent (startOf exampleSite)
     = (Ret true, logged (startOf exampleSite) 1 (CallFn 0 beforeBuildEvent))
  /\ LumeSite.dispatchLoop [Callable 2] beforeBuildEvent (startOf exampleSite)
     = (Ret false, logged (startOf exampleSite) 1 (CallFn 2 beforeBuildEvent)).
Proof.
  split; [|split].
  - apply (proj1 (listener_outcome beforeBuildEvent (startOf exampleSite))
             "deploy" true 1).
    reflexivity.
  - apply (proj1 (proj2 (listener_outcome beforeBuildEvent
                           (startOf exampleSite)))
             0 JsUndefined 1).
    reflexivity.
  - apply (proj1 (proj2 (listener_outcome beforeBuildEvent
                           (startOf exampleSite)))
             2 (JsBoolean false) 1).
    reflexivity.
Defined.

Lemma addEventListener_idempotent_witness :
  exists steps,
    [Dispatch beforeBuildEvent; CallFn 1 beforeBuildEvent] = [] ++ steps
    /\ atMostOnce (invocation beforeBuildEvent (Callable 1)) steps
    /\ (true = true ->
        exactlyOnce (invocation beforeBuildEvent (Callable 1)) steps).
Proof.
  apply (proj2 (addEventListener_idempotent beforeBuild (Callable 1) exampleSite)
           (constructor_distinct "/home/u/site" noOptions)
           beforeBuildEvent
           (startOf (LumeSite.addEventListener beforeBuild (Callable 1)
                       (LumeSite.addEventListener beforeBuild (Callable 1)
                          exampleSite)))
           true
           {| st_site := LumeSite.addEventListener beforeBuild (Callable 1)
                           (LumeSite.addEventListener beforeBuild (Callable 1)
                              exampleSite);
              st_world := 1;
              st_trace := [Dispatch beforeBuildEvent;
                           CallFn 1 beforeBuildEvent] |}).
  - reflexivity.
  - reflexivity.
  - vm_compute. reflexivity.
Defined.


Lemma classify_total_ordered_witness :
  SiteSource.isIgnored (source assetsSite) "/assets/_tmp/.keep" = true
  /\ LumeSite.hidden (normalizePath "/assets/_tmp/.keep") = true
  /\ LumeSite.classify assetsSite "/assets/_tmp/.keep"
     = LumeSite.Static "/assets" "/assets".
Proof.
  split; [reflexivity|]. split; [reflexivity|].
  apply (proj1 (proj2 (classify_total_ordered (W:=nat) assetsSite
                         "/assets/_tmp/.keep"))
           "/assets" "/assets").
  reflexivity.
Defined.

Lemma data_reload_pattern_witness :
  LumeSite.classify exampleSite "/_data/colors.yml" = LumeSite.DataReload.
Proof.
  refine (proj2 (proj2 (data_reload_pattern (W:=nat) exampleSite
                          "/_data/colors.yml" _ _)) _); reflexivity.
Defined.

Lemma url_source_not_found_witness :
  LumeSite.url exampleSite "~/blog/post.md" false
  = Throw (Exception "Source file not found" "/blog/post.md").
Proof.
  refine (proj1 (url_source_not_found exampleSite "blog/post.md"
                   "/blog/post.md" false _ _ _)).
  - reflexivity.
  - intros page Hin. destruct (proj1 (elem_of_nil page) Hin).
  - intros from to Hin. destruct (proj1 (elem_of_nil (from, to)) Hin).
Defined.

Lemma url_page_witness :
  LumeSite.url blogSite "~/about.md" true
  = Ret "https://example.com/blog/about/".
Proof.
  refine (proj1 (url_page blogSite "about.md" "/about.md" true [] []
                   aboutPage _ _ _ _)).
  - reflexivity.
  - reflexivity.
  - intros q Hin. destruct (proj1 (elem_of_nil q) Hin).
  - reflexivity.
Defined.

Lemma constructor_ignores_dest_witness :
  "/_site" ∈ ignored (source exampleSite).
Proof.
  refine (proj1 (constructor_ignores_dest "/home/u/site" noOptions _)).
  reflexivity.
Defined.

Lemma copy_registers_witness :
  staticFiles (source (LumeSite.copy "assets" None exampleSite))
  = staticFiles (source exampleSite) ++ [("/assets", "/assets")].
Proof.
  apply (proj2 (proj2 (proj2 (proj2
           (copy_registers "assets" None exampleSite)))) eq_refl eq_refl).
Defined.

(** C3: the path the error carries keeps the leading "/". *)
Lemma url_error_path_counterexample :
  pages exampleSite = []
  /\ staticFiles (source exampleSite) = []
  /\ LumeSite.url exampleSite "~/blog/post.md" false
     <> Throw (Exception "Source file not found" "blog/post.md").
Proof. repeat split. discriminate. Qed.

(** C5: under the base path "/blog/" the page's [data.url] "/about/" is
    not what [url] returns. *)
Lemma url_base_path_counterexample :
  aboutPage ∈ pages blogSite
  /\ sourceFile aboutPage = "/about.md"
  /\ LumeSite.url blogSite "~/about.md" false = Ret "/blog/about/"
  /\ LumeSite.url blogSite "~/about.md" false
     <> Ret (data_url (page_data aboutPage)).
Proof.
  split; [apply list_elem_of_here|]. repeat split. discriminate.
Qed.

(** C6: "_data.yml~" is a file named _data with the extension "yml~"
    (what [extname] gives), yet the path is skipped as hidden. *)
Lemma data_extension_counterexample :
  SiteSource.isStatic (source exampleSite) "/_data.yml~" = None
  /\ SiteSource.isIgnored (source exampleSite) "/_data.yml~" = false
  /\ SpecWords.isDataPath (normalizePath "/_data.yml~") = true
  /\ LumeSite.classify exampleSite "/_data.yml~" = LumeSite.HiddenSkip
  /\ LumeSite.classify exampleSite "/_data.yml~" <> LumeSite.DataReload.
Proof. repeat split. discriminate. Qed.

(** C10: an absolute argument is not prefixed with a second "/". *)
Lemma copy_absolute_counterexample :
  staticFiles (source (LumeSite.copy "/assets" None exampleSite))
  = [("/assets", "/assets")]
  /\ staticFiles (source (LumeSite.copy "/assets" None exampleSite))
     <> staticFiles (source exampleSite)
        ++ [("/" +:+ "/assets", "/" +:+ "/assets")].
Proof. split; [reflexivity | discriminate]. Qed.

End Witnesses.

(** ** The further properties at concrete inputs *)

Section QuietWitnesses.
Local Existing Instances plainExternals quietScripts quietCallables
  quietEmitter quietLoader quietRenderer quietMetrics quietConcurrency
  quietFiles plainEta.

Lemma dispatchEvent_other_type_witness :
  fst (LumeSite.dispatchEvent beforeBuildEvent
         (onSite (LumeSite.addEventListener afterBuild (Callable 2) busSite)
            (startOf busSite)))
  = fst (LumeSite.dispatchEvent beforeBuildEvent (startOf busSite)).
Proof.
  refine (f_equal fst (dispatchEvent_other_type afterBuild (Callable 2)
                         beforeBuildEvent (startOf busSite) _)).
  discriminate.
Defined.

Lemma addEventListener_commute_witness :
  LumeSite.addEventListener beforeBuild (Callable 1)
    (LumeSite.addEventListener afterBuild (Named "deploy") exampleSite)
  = LumeSite.addEventListener afterBuild (Named "deploy")
      (LumeSite.addEventListener beforeBuild (Callable 1) exampleSite).
Proof.
  refine (addEventListener_commute beforeBuild afterBuild (Callable 1)
            (Named "deploy") exampleSite _).
  discriminate.
Defined.

Lemma addEventListener_order_witness :
  LumeSite.addEventListener beforeBuild (Callable 1) busSite = busSite.
Proof.
  refine (proj1 (addEventListener_order beforeBuild (Callable 1) busSite)
            [Callable 1; Callable 2; Callable 3] _ _).
  - vm_compute. reflexivity.
  - apply list_elem_of_here.
Defined.

Lemma ignore_adds_witness :
  "/drafts" ∈ ignored (source (LumeSite.ignore ["_cache"; "drafts"] exampleSite)).
Proof.
  refine (proj2 (proj1 (ignore_adds ["_cache"; "drafts"] exampleSite)
                   "/drafts") _).
  right. exists "drafts".
  split; [apply list_elem_of_further, list_elem_of_here | reflexivity].
Defined.

Lemma constructor_default_ignores_witness :
  ignored (source (LumeSite.constructor "/srv/www/../blog" noOptions))
  = ["/_site"].
Proof.
  exact (constructor_default_ignores "srv/www/../blog" noOptions
           eq_refl eq_refl eq_refl).
Defined.

Lemma constructor_ignores_nothing_witness :
  source splitSite = SiteSource.new /\ listeners splitSite = ∅
  /\ pages splitSite = []
  /\ forall file, SiteSource.isIgnored (source splitSite) file = false.
Proof.
  refine (constructor_ignores_nothing "/home/u/site" _ _). reflexivity.
Defined.

Lemma url_fails_only_on_marker_witness :
  exists u, LumeSite.url blogSite "missing/page.md" true = Ret u.
Proof.
  refine (url_fails_only_on_marker blogSite "missing/page.md" true _).
  reflexivity.
Defined.

Lemma url_rooted_witness :
  exists u,
    LumeSite.url blogSite "posts/../feed.xml" false = Ret u
    /\ Js.startsWith u "/" = true
    /\ (Js.startsWith "posts/../feed.xml"
          (pathname (location (options blogSite))) = true ->
        u = "posts/../feed.xml").
Proof.
  refine (url_rooted blogSite "posts/../feed.xml" _ _ _ _); reflexivity.
Defined.

Lemma url_static_mapping_witness :
  LumeSite.url staticSite "~/assets/logo.png" true
  = Ret (LumeSite.qualify staticSite
           (normalizePath (Path.join ["/assets"; "/logo.png"])) true).
Proof.
  refine (url_static_mapping staticSite "assets/logo.png" "/assets" "/assets"
            "/logo.png" true [] [] _ _ _ _).
  - reflexivity.
  - intros page Hin. destruct (proj1 (elem_of_nil page) Hin).
  - reflexivity.
  - intros e Hin. destruct (proj1 (elem_of_nil e) Hin).
Defined.

Lemma data_paths_look_hidden_witness :
  LumeSite.hidden "/blog/_data.json" = true.
Proof.
  refine (data_paths_look_hidden "/blog/_data.json" _). reflexivity.
Defined.

Lemma updateFile_reloads_witness :
  exists steps,
    added (startOf exampleSite)
      (snd (LumeSite.updateFile "/index.md" (startOf exampleSite))) steps
    /\ (steps = [] \/ steps = [LoadFile "/index.md"]
        \/ exists target, steps = [CopyFile "/index.md" target])
    /\ (LoadFile "/index.md" ∈ steps
        <-> SiteSource.isStatic (source exampleSite) "/index.md" = None
            /\ SiteSource.isIgnored (source exampleSite) "/index.md" = false
            /\ (LumeSite.dataPattern (normalizePath "/index.md") = true
                \/ LumeSite.hidden (normalizePath "/index.md") = false)).
Proof.
  refine (proj2 (updateFile_reloads "/index.md" (startOf exampleSite)
                   (snd (LumeSite.updateFile "/index.md" (startOf exampleSite)))
                   (Ret tt) _)).
  reflexivity.
Defined.


Lemma getFileContent_page_witness :
  LumeSite.getFileContent blogSite "/about/" 0
  = (Ret (page_content aboutPage), 0).
Proof.
  refine (getFileContent_page blogSite "/about/" 0 [] [] aboutPage _ _ _).
  - reflexivity.
  - intros q Hin. destruct (proj1 (elem_of_nil q) Hin).
  - reflexivity.
Defined.

Lemma getFileContent_static_witness :
  LumeSite.getFileContent staticSite ("/assets" +:+ "/logo.png") 0
  = LumeSite.loadContent (LumeSite.src staticSite ["/assets"; "/logo.png"]) 0.
Proof.
  refine (getFileContent_static staticSite "/assets" "/assets" "/logo.png" 0
            [] [] _ _ _).
  - intros q Hin. destruct (proj1 (elem_of_nil q) Hin).
  - reflexivity.
  - intros e Hin. destruct (proj1 (elem_of_nil e) Hin).
Defined.

Lemma getFileContent_source_witness :
  LumeSite.getFileContent exampleSite "/index.md" 0
  = LumeSite.loadContent (LumeSite.src exampleSite ["/index.md"]) 0.
Proof.
  refine (proj1 (getFileContent_source exampleSite "/index.md" 0 _ _)).
  - intros q Hin. destruct (proj1 (elem_of_nil q) Hin).
  - intros e Hin. destruct (proj1 (elem_of_nil e) Hin).
Defined.


End QuietWitnesses.

Section FaultyWitnesses.
Local Existing Instances plainExternals quietScripts faultyCallables
  faultyEmitter quietLoader quietRenderer quietMetrics quietConcurrency.

Lemma dispatchEvent_throws_witness :
  LumeSite.dispatchEvent beforeBuildEvent (startOf faultySite)
  = (Throw (Raised 9),
     {| st_site := faultySite; st_world := 2;
        st_trace := [Dispatch beforeBuildEvent; CallFn 1 beforeBuildEvent;
                     CallFn 9 beforeBuildEvent] |})
  /\ added (startOf faultySite)
       {| st_site := faultySite; st_world := 2;
          st_trace := [Dispatch beforeBuildEvent; CallFn 1 beforeBuildEvent;
                       CallFn 9 beforeBuildEvent] |}
       (Dispatch beforeBuildEvent
        :: map (invocation beforeBuildEvent) ([Callable 1] ++ [Callable 9])).
Proof.
  refine (dispatchEvent_throws beforeBuildEvent (startOf faultySite)
            {| st_site := faultySite; st_world := 1;
               st_trace := [Dispatch beforeBuildEvent;
                            CallFn 1 beforeBuildEvent] |}
            _ [Callable 1] [Callable 3] (Callable 9) (Raised 9) _ _ _).
  - vm_compute. reflexivity.
  - eapply passes_cons; [reflexivity | apply passes_nil].
  - reflexivity.
Defined.

Lemma build_aborted_by_listener_witness :
  exists st',
    LumeSite.build (startOf faultySite) = (Throw (Raised 9), st')
    /\ phases (st_trace st')
       = phases (st_trace (startOf faultySite)) ++ [PhDispatch beforeBuild].
Proof.
  eexists.
  refine (build_aborted_by_listener (startOf faultySite) _ 1 (Raised 9) _ _).
  - reflexivity.
  - vm_compute. reflexivity.
Defined.

Lemma copyAll_stops_at_failure_witness :
  LumeSite.copyAll ([("/a", "/a")] ++ ("/broken", "/b") :: [("/c", "/c")])
    (startOf exampleSite)
  = (Throw (Raised 1),
     logged {| st_site := exampleSite; st_world := 1;
               st_trace := [CopyFile "/a" "/a"] |} 2
       (CopyFile "/broken" "/b")).
Proof.
  refine (proj1 (copyAll_stops_at_failure [("/a", "/a")] [("/c", "/c")]
                   "/broken" "/b" (startOf exampleSite)
                   {| st_site := exampleSite; st_world := 1;
                      st_trace := [CopyFile "/a" "/a"] |}
                   2 (Raised 1) _ _)); reflexivity.
Defined.

End FaultyWitnesses.

Section EtaWitnesses.
Local Existing Instances plainEta.

Lemma addHelper_registers_witness :
  Eta.filters (Eta.addHelper emptyEta "upper" 4
                 {| Eta.helper_type := "filter"; Eta.helper_async := true |})
    !! "upper" = Some 4
  /\ Eta.addHelper emptyEta "upper" 4
       {| Eta.helper_type := "tag"; Eta.helper_async := true |} = emptyEta.
Proof.
  split.
  - refine (proj1 (proj1 (addHelper_registers emptyEta "upper" 4
                            {| Eta.helper_type := "filter";
                               Eta.helper_async := true |}) _)).
    reflexivity.
  - refine (proj2 (addHelper_registers emptyEta "upper" 4
                     {| Eta.helper_type := "tag";
                        Eta.helper_async := true |}) _).
    discriminate.
Defined.

Lemma render_uses_cache_witness :
  (Eta.outcome (Eta.render pageEta "Bye" ∅ "page.eta" 5),
   Eta.world_after (Eta.render pageEta "Bye" ∅ "page.eta" 5))
  = (Ret "Hello", 6)
  /\ Eta.eta_after (Eta.render pageEta "Bye" ∅ "page.eta" 5) = pageEta.
Proof.
  refine (render_uses_cache pageEta "Bye" "page.eta" ∅ 5 "Hello" _).
  vm_compute. reflexivity.
Defined.

Lemma render_twice_witness :
  (Eta.outcome (Eta.render pageEta "!broken" ∅ "page.eta" 1),
   Eta.world_after (Eta.render pageEta "!broken" ∅ "page.eta" 1))
  = (Ret "Hello", 2)
  /\ Eta.eta_after (Eta.render pageEta "!broken" ∅ "page.eta" 1) = pageEta.
Proof.
  refine (render_twice emptyEta "Hello" "!broken" "page.eta" ∅ ∅ 0 1 "Hello" _ _);
    reflexivity.
Defined.

Lemma render_compile_error_witness :
  Eta.render emptyEta "!broken" ∅ "page.eta" 0
  = {| Eta.outcome := Throw (Raised 2); Eta.eta_after := emptyEta;
       Eta.data_after := ∅; Eta.world_after := 0 |}.
Proof.
  refine (render_compile_error emptyEta "!broken" "page.eta" ∅ 0 (Raised 2) _ _);
    reflexivity.
Defined.

Lemma render_data_filters_witness :
  Eta.data_after (Eta.render emptyEta "Hello"
                    {["filters" := Eta.Plain "mine"]} "page.eta" 0)
    !! "filters" = Some (Eta.Filters ∅).
Proof.
  refine (proj1 (render_data_filters emptyEta "Hello" "page.eta"
                   {["filters" := Eta.Plain "mine"]} 0 _)).
  intros _. exists "Hello". reflexivity.
Defined.

End EtaWitnesses.
